(** * TextExporter: a verified model of [webtoon_downloader.core.webtoon.exporter]

    The exporter accumulates chapter titles, author notes and a series
    summary in a dictionary and writes them to disk as plain-text files
    and/or one [info.json].  This development embeds the Python module
    function by function and proves the properties its specification
    states about it.

    Conventions of the embedding:
    - a Python [str] is a [string]; the character with code [n] stands
      for the code point [n] (code points 0..255);
    - a Python [int] is a [Z];
    - a [pathlib.Path] is the list of its components, so [Path(".")] is
      the empty list and [d / name] appends one component;
    - a [dict] is an association list in insertion order;
    - the object [self] and the disk are threaded explicitly, and an
      exception is a result of the computation. *)

From Stdlib Require Import ZArith NArith String Ascii List Lia Bool.
From Stdlib Require Import DecimalString DecimalZ DecimalN DecimalPos.
From Stdlib Require Import Sorting.Sorted.
From stdpp Require Import gmap strings list fin_maps.

Local Open Scope Z_scope.

(** ** Python primitives used by the module *)

Module Py.

(** Exceptions that can leave the exporter. *)
Inductive OSError :=
| PermissionError
| FileExistsError
| NotADirectoryError
| IsADirectoryError
| ENOSPC.

(** [UnicodeEncodeError] is a subclass of [ValueError]; it is kept apart
    because it is raised by the file object and not by [format]. *)
Inductive exn :=
| OSErr (e : OSError)
| ValueError
| UnicodeEncodeError
| MemoryError.

(** [sys.maxsize], that is [PY_SSIZE_T_MAX], of a 64-bit build. *)
Definition maxsize : Z := 2 ^ 63 - 1.

(** Truth value of a [str | None]: [None] and the empty string are false. *)
Definition truthy (s : option string) : bool :=
  match s with
  | None => false
  | Some EmptyString => false
  | Some (String _ _) => true
  end.

Definition truthy_str (s : string) : bool := truthy (Some s).

(** [str(n)], also [int.__repr__]. *)
Definition str_of_int (n : Z) : string :=
  NilZero.string_of_int (Z.to_int n).

(** [int(s)] on a decimal literal with an optional minus sign. *)
Definition int_of_str (s : string) : option Z :=
  option_map Z.of_int (NilZero.int_of_string s).

Definition is_digit (c : ascii) : bool :=
  ((48 <=? N_of_ascii c) && (N_of_ascii c <=? 57))%N.

(** The longest prefix of decimal digits and what follows it. *)
Fixpoint span_digits (s : string) : string * string :=
  match s with
  | EmptyString => (EmptyString, EmptyString)
  | String c s' =>
      if is_digit c
      then let '(ds, rest) := span_digits s' in (String c ds, rest)
      else (EmptyString, s)
  end.

(** A parsed format specification, for the part of the mini-language
    that [0{padding}d] can produce: the zero flag, a width, a type. *)
Record format_spec := {
  zero_flag : bool;
  width : option N;
  type : option ascii;
}.

(** [get_integer] refuses a number above [PY_SSIZE_T_MAX] ("Too many
    decimal digits in format string"). *)
Definition too_many_digits (w : option N) : bool :=
  match w with
  | Some n => maxsize <? Z.of_N n
  | None => false
  end.

(** [parse_internal_render_format_spec]: an optional [0] flag, then the
    digits of the width (no digit means no width, a width above
    [sys.maxsize] is an error), then at most one type character; anything
    longer is an invalid specifier. *)
Definition parse_format_spec (spec : string) : exn + format_spec :=
  let '(flag, s1) :=
    match spec with
    | String "0" s => (true, s)
    | _ => (false, spec)
    end in
  let '(ds, s2) := span_digits s1 in
  let w :=
    match ds with
    | EmptyString => None
    | _ => option_map N.of_uint (NilEmpty.uint_of_string ds)
    end in
  if too_many_digits w then inl ValueError
  else
    match s2 with
    | EmptyString => inr {| zero_flag := flag; width := w; type := None |}
    | String t EmptyString =>
        inr {| zero_flag := flag; width := w; type := Some t |}
    | _ => inl ValueError
    end.

Fixpoint zeros (k : nat) : string :=
  match k with
  | O => EmptyString
  | S k' => String "0" (zeros k')
  end.

(** [format(n, spec)] for an [int] and presentation type [d] (also the
    default when no type is given): the sign, then the fill, then the
    digits.  The zero flag makes the fill sign-aware.  A specification
    without the flag gets no fill, and a type other than [d] is
    rejected: neither is reachable from the exporter.  The length of the
    result is known before it is built, and a result longer than [limit],
    the longest string the runtime can allocate, is a [MemoryError]. *)
Definition format_int (limit : N) (n : Z) (spec : string) : exn + string :=
  match parse_format_spec spec with
  | inl e => inl e
  | inr f =>
      match type f with
      | Some "d"%char | None =>
          let sign := if n <? 0 then "-"%string else EmptyString in
          let digits := str_of_int (Z.abs n) in
          let w := match width f with Some w => w | None => 0%N end in
          let total :=
            N.max (if zero_flag f then w else 0%N)
                  (N.of_nat (String.length sign + String.length digits)) in
          if (limit <? total)%N then inl MemoryError
          else
            let fill :=
              if zero_flag f
              then zeros (N.to_nat w - String.length sign - String.length digits)
              else EmptyString in
            inr (sign +:+ fill +:+ digits)
      | Some _ => inl ValueError
      end
  end.

(** The f-string [f"{n:0{padding}d}"]: the inner field is formatted
    first and spliced into the specification. *)
Definition fstring_0d (limit : N) (n padding : Z) : exn + string :=
  format_int limit n ("0" +:+ str_of_int padding +:+ "d").

End Py.

(** ** The standard JSON encoder, as [json.dumps(_, sort_keys=True, indent=4)] runs it *)

Module Json.

Definition quote : ascii := "034"%char.
Definition backslash : ascii := "092"%char.
Definition LF : ascii := "010"%char.
Definition CR : ascii := "013"%char.
Definition TAB : ascii := "009"%char.
Definition BS : ascii := "008"%char.
Definition FF : ascii := "012"%char.

Definition str1 (c : ascii) : string := String c EmptyString.
Definition esc (c : ascii) : string := String backslash (str1 c).

Definition hex_digit (n : N) : ascii :=
  match n with
  | 0 => "0" | 1 => "1" | 2 => "2" | 3 => "3" | 4 => "4" | 5 => "5"
  | 6 => "6" | 7 => "7" | 8 => "8" | 9 => "9" | 10 => "a" | 11 => "b"
  | 12 => "c" | 13 => "d" | 14 => "e" | _ => "f"
  end%N%char.

(** ['\\u{0:04x}'.format(n)] *)
Definition u_escape (n : N) : string :=
  String backslash (String "u"
    (String (hex_digit ((n / 4096) mod 16))
    (String (hex_digit ((n / 256) mod 16))
    (String (hex_digit ((n / 16) mod 16))
    (String (hex_digit (n mod 16)) EmptyString)))))%N.

(** [ESCAPE_ASCII] matches a backslash, a double quote and every
    character outside the range from space to tilde. *)
Definition needs_escape (c : ascii) : bool :=
  Ascii.eqb c backslash || Ascii.eqb c quote
  || negb ((32 <=? N_of_ascii c) && (N_of_ascii c <=? 126))%N.

(** [replace] of [py_encode_basestring_ascii]: the short escapes of
    [ESCAPE_DCT], and a [\u] escape for everything else that matches. *)
Definition replace (c : ascii) : string :=
  if Ascii.eqb c backslash then esc backslash
  else if Ascii.eqb c quote then esc quote
  else if Ascii.eqb c BS then esc "b"
  else if Ascii.eqb c FF then esc "f"
  else if Ascii.eqb c LF then esc "n"
  else if Ascii.eqb c CR then esc "r"
  else if Ascii.eqb c TAB then esc "t"
  else u_escape (N_of_ascii c).

Fixpoint escape_ascii_sub (s : string) : string :=
  match s with
  | EmptyString => EmptyString
  | String c s' =>
      (if needs_escape c then replace c else str1 c) +:+ escape_ascii_sub s'
  end.

Definition py_encode_basestring_ascii (s : string) : string :=
  String quote (escape_ascii_sub s +:+ str1 quote).

(** The values the exporter hands to the encoder: strings, dictionaries
    keyed by strings and dictionaries keyed by integers. *)
#[warnings="-register-all"]
Inductive pyobj :=
| PyStr (s : string)
| PyDictStr (items : list (string * pyobj))
| PyDictInt (items : list (Z * pyobj)).

(** [sorted(items)] on the keys: a stable insertion sort.  The keys of a
    dictionary are distinct, so the values never decide an order. *)
Section Sorted.
Context {K V : Type} (le : K -> K -> bool).

Fixpoint insert_item (x : K * V) (l : list (K * V)) : list (K * V) :=
  match l with
  | [] => [x]
  | y :: l' => if le (fst x) (fst y) then x :: l else y :: insert_item x l'
  end.

Fixpoint sorted (l : list (K * V)) : list (K * V) :=
  match l with
  | [] => []
  | x :: l' => insert_item x (sorted l')
  end.
End Sorted.

Fixpoint spaces (k : nat) : string :=
  match k with
  | O => EmptyString
  | S k' => String " " (spaces k')
  end.

(** ['\n' + _indent * level] with [_indent = ' ' * 4] *)
Definition newline_indent (level : nat) : string :=
  String LF (spaces (4 * level)).

Definition item_separator : string := ",".
Definition key_separator : string := ": ".

(** The loop of [_iterencode_dict] over keys already turned into strings
    and values already encoded, [sep] being yielded between two items. *)
Fixpoint join_items (sep : string) (items : list (string * string)) : string :=
  match items with
  | [] => EmptyString
  | [(k, chunk)] => py_encode_basestring_ascii k +:+ key_separator +:+ chunk
  | (k, chunk) :: rest =>
      py_encode_basestring_ascii k +:+ key_separator +:+ chunk
      +:+ sep +:+ join_items sep rest
  end.

Definition _iterencode_dict (items : list (string * string)) (level : nat)
  : string :=
  match items with
  | [] => "{}"
  | _ =>
      "{" +:+ newline_indent (S level)
      +:+ join_items (item_separator +:+ newline_indent (S level)) items
      +:+ newline_indent level +:+ "}"
  end.

Definition _intstr : Z -> string := Py.str_of_int.

(** [_iterencode]: a string is escaped and quoted; the items of a
    dictionary are sorted on their keys as they are in the dictionary
    (integers as integers), and only then is an integer key turned into
    its decimal string.  The values are one level deeper. *)
Fixpoint _iterencode (o : pyobj) (level : nat) : string :=
  match o with
  | PyStr s => py_encode_basestring_ascii s
  | PyDictStr d =>
      _iterencode_dict
        (sorted String.leb
           (map (fun kv => (fst kv, _iterencode (snd kv) (S level))) d))
        level
  | PyDictInt d =>
      _iterencode_dict
        (map (fun kc => (_intstr (fst kc), snd kc))
           (sorted Z.leb
              (map (fun kv => (fst kv, _iterencode (snd kv) (S level))) d)))
        level
  end.

Definition dumps (o : pyobj) : string := _iterencode o 0.

(** *** JSON documents and the decoder

    A document of the shape the exporter writes: strings and objects,
    the members of an object in the order of the text. *)
#[warnings="-register-all"]
Inductive json :=
| JString (s : string)
| JObject (members : list (string * json)).

(** The document an object stands for: keys sorted and turned into
    strings, values converted in the same way. *)
Fixpoint normalise (o : pyobj) : json :=
  match o with
  | PyStr s => JString s
  | PyDictStr d =>
      JObject (sorted String.leb (map (fun kv => (fst kv, normalise (snd kv))) d))
  | PyDictInt d =>
      JObject
        (map (fun kc => (_intstr (fst kc), snd kc))
           (sorted Z.leb (map (fun kv => (fst kv, normalise (snd kv))) d)))
  end.

(** The text of a document with an indentation of four spaces. *)
Fixpoint render (level : nat) (j : json) : string :=
  match j with
  | JString s => py_encode_basestring_ascii s
  | JObject ms =>
      _iterencode_dict
        (map (fun kv => (fst kv, render (S level) (snd kv))) ms) level
  end.











End Json.

(** ** Dictionaries in insertion order *)

Module Dict.
Section Dict.
Context {K V : Type} `{EqDecision K}.

Definition t := list (K * V).

Definition empty : t := [].

Fixpoint get (k : K) (d : t) : option V :=
  match d with
  | [] => None
  | (k', v) :: d' => if decide (k = k') then Some v else get k d'
  end.

(** [d[k] = v]: an existing key keeps its place and takes the new
    value, a new key goes to the end. *)
Fixpoint set (k : K) (v : V) (d : t) : t :=
  match d with
  | [] => [(k, v)]
  | (k', v') :: d' =>
      if decide (k = k') then (k', v) :: d' else (k', v') :: set k v d'
  end.

Definition keys (d : t) : list K := map fst d.
End Dict.
Arguments t : clear implicits.
End Dict.

(** ** The disk *)

Abbreviation Path := (list string).

Inductive OpenMode := ModeA | ModeW.

Inductive Syscall :=
| SysMkdir (p : Path)
| SysOpen (p : Path) (m : OpenMode)
| SysWrite (p : Path) (payload : string).

(** Regular files with their content, the directories, and the calls that
    were carried out, oldest first. *)
Record FileSystem := {
  files : gmap Path string;
  dirs : gset Path;
  journal : list Syscall;
}.

(** The environment of a run: the operating system, the locale and the
    runtime.  The operating system decides which call fails, from the
    state of the disk and the arguments of the call.  A failed
    [mkdir(parents=True)] has made some of the ancestors, the outermost
    first, and a failed write has put some first characters of the
    payload in the file: the fault tells how many.  [encodable] tells
    which texts the encoding of the locale can encode, and [str_limit] is
    the length of the longest string the runtime can allocate. *)
Record OS := {
  mkdir_fault : FileSystem -> Path -> option (Py.OSError * nat);
  open_fault : FileSystem -> Path -> OpenMode -> option Py.OSError;
  write_fault : FileSystem -> Path -> string -> option (Py.OSError * nat);
  encodable : string -> bool;
  str_limit : N;
}.

(** An environment in which no call fails and every text can be encoded. *)
Definition reliable : OS := {|
  mkdir_fault := fun _ _ => None;
  open_fault := fun _ _ _ => None;
  write_fault := fun _ _ _ => None;
  encodable := fun _ => true;
  str_limit := Z.to_N Py.maxsize;
|}.

(** The first [k] characters of a text. *)
Fixpoint str_take (k : nat) (s : string) : string :=
  match k, s with
  | S k', String c s' => String c (str_take k' s')
  | _, _ => EmptyString
  end.

Definition joinpath (d : Path) (name : string) : Path := d ++ [name].

Definition parent (p : Path) : Path := removelast p.

(** A path with all its ancestors, [Path(".")] first. *)
Fixpoint with_parents (p : Path) : list Path :=
  [] :: match p with
        | [] => []
        | c :: p' => map (cons c) (with_parents p')
        end.

(** ** The data model of the exporter *)

(** Modelled from the spec: [ChapterInfo] is declared in
    [webtoon_downloader.core.webtoon.models]; the exporter reads its
    integer [number] and its string [title] only.  The latter is
    [chapter_title] here, [title] being the field of [ExportChapterData]. *)
Record ChapterInfo := {
  number : Z;
  chapter_title : string;
}.

Inductive TextExporterFormat := Text | JSON | All.

Record ExportChapterData := {
  title : string;
  notes : string;
}.

Record ExportData := {
  chapters : Dict.t Z ExportChapterData;
  summary : string;
}.

(** The fields of the dataclass; [dest] is kept as the path [_dest] that
    [__post_init__] makes of it. *)
Record TextExporter := {
  export_format : TextExporterFormat;
  _dest : Path;
  _data : ExportData;
  _write_json : bool;
  _write_text : bool;
}.

(** [export_format in ["json", "all"]] and [export_format in ["text", "all"]] *)
Definition in_json_all (f : TextExporterFormat) : bool :=
  match f with JSON | All => true | Text => false end.

Definition in_text_all (f : TextExporterFormat) : bool :=
  match f with Text | All => true | JSON => false end.

(** The constructor with [__post_init__]; [dest] defaults to [Path(".")]. *)
Definition new (fmt : TextExporterFormat) (dest : option Path) : TextExporter := {|
  export_format := fmt;
  _dest := default [] dest;
  _data := {| chapters := Dict.empty; summary := EmptyString |};
  _write_json := in_json_all fmt;
  _write_text := in_text_all fmt;
|}.

(** The dictionary [_data] as the encoder sees it, keys in the order in
    which the literals of the module list them. *)
Definition chapter_obj (r : ExportChapterData) : Json.pyobj :=
  Json.PyDictStr [("title"%string, Json.PyStr (title r));
                  ("notes"%string, Json.PyStr (notes r))].

Definition data_obj (d : ExportData) : Json.pyobj :=
  Json.PyDictStr
    [("chapters"%string,
      Json.PyDictInt (map (fun kv => (fst kv, chapter_obj (snd kv))) (chapters d)));
     ("summary"%string, Json.PyStr (summary d))].

(** ** Computations on the exporter and the disk *)

Record state := {
  self : TextExporter;
  disk : FileSystem;
}.

Definition M (A : Type) : Type := state -> (Py.exn + A) * state.

Definition ret {A} (a : A) : M A := fun st => (inr a, st).

Definition bind {A B} (m : M A) (k : A -> M B) : M B :=
  fun st =>
    match m st with
    | (inr a, st') => k a st'
    | (inl e, st') => (inl e, st')
    end.

Notation "x <- m ;; k" := (bind m (fun x => k))
  (at level 100, m at next level, right associativity).
Notation "m ;;; k" := (bind m (fun _ => k))
  (at level 100, right associativity).

Definition get_self : M TextExporter := fun st => (inr (self st), st).

Definition put_self (e : TextExporter) : M unit :=
  fun st => (inr tt, {| self := e; disk := disk st |}).

Definition lift {A} (r : Py.exn + A) : M A :=
  fun st => (r, st).

(** The outcome and the final state of a computation. *)
Definition outcome {A} (r : (Py.exn + A) * state) : Py.exn + A := fst r.
Definition final {A} (r : (Py.exn + A) * state) : state := snd r.

Section Exporter.

Variable os : OS.

(** [Path.mkdir(exist_ok=True, parents=True)]; a failure leaves the
    ancestors that were made before it. *)
Definition mkdir_p (p : Path) : M unit := fun st =>
  let fs := disk st in
  match mkdir_fault os fs p with
  | Some (e, k) =>
      (inl (Py.OSErr e),
       {| self := self st;
          disk := {| files := files fs;
                     dirs := dirs fs ∪ list_to_set (take k (with_parents p));
                     journal := journal fs |} |})
  | None =>
      (inr tt,
       {| self := self st;
          disk := {| files := files fs;
                     dirs := dirs fs ∪ list_to_set (with_parents p);
                     journal := journal fs ++ [SysMkdir p] |} |})
  end.

(** [open(target, mode)]: [w] creates or empties the file, [a] creates
    it when it is missing. *)
Definition open_ (target : Path) (mode : OpenMode) : M unit := fun st =>
  let fs := disk st in
  match open_fault os fs target mode with
  | Some e => (inl (Py.OSErr e), st)
  | None =>
      let old :=
        match mode with
        | ModeW => EmptyString
        | ModeA => default EmptyString (files fs !! target)
        end in
      (inr tt,
       {| self := self st;
          disk := {| files := <[target := old]> (files fs);
                     dirs := dirs fs;
                     journal := journal fs ++ [SysOpen target mode] |} |})
  end.

(** [f.write(payload)] on the file just opened: the payload is encoded
    with the encoding of the locale, which fails on a text it cannot
    encode, and goes to the end of the file; a failure of the operating
    system leaves the first characters that were written. *)
Definition write (target : Path) (payload : string) : M unit := fun st =>
  let fs := disk st in
  let old := default EmptyString (files fs !! target) in
  if negb (encodable os payload) then (inl Py.UnicodeEncodeError, st)
  else
  match write_fault os fs target payload with
  | Some (e, k) =>
      (inl (Py.OSErr e),
       {| self := self st;
          disk := {| files := <[target := old +:+ str_take k payload]> (files fs);
                     dirs := dirs fs;
                     journal := journal fs |} |})
  | None =>
      (inr tt,
       {| self := self st;
          disk := {| files := <[target := old +:+ payload]> (files fs);
                     dirs := dirs fs;
                     journal := journal fs ++ [SysWrite target payload] |} |})
  end.

Definition _aio_write (target : Path) (data : string)
    (mode : OpenMode) (end_ : string) : M unit :=
  mkdir_p (parent target) ;;;
  open_ target mode ;;;
  write target (data +:+ end_).

(** The defaults of [_aio_write]: [mode="w"], [end="\n"]. *)
Definition default_mode : OpenMode := ModeW.
Definition default_end : string := Json.str1 Json.LF.

(** [Path(directory) if directory else self._dest]; a missing or empty
    [directory] is [None] here. *)
Definition resolve (directory : option Path) (e : TextExporter) : Path :=
  match directory with
  | Some d => d
  | None => _dest e
  end.

Definition set_summary (s : string) (e : TextExporter) : TextExporter := {|
  export_format := export_format e;
  _dest := _dest e;
  _data := {| chapters := chapters (_data e); summary := s |};
  _write_json := _write_json e;
  _write_text := _write_text e;
|}.

Definition set_chapter (n : Z) (r : ExportChapterData) (e : TextExporter)
  : TextExporter := {|
  export_format := export_format e;
  _dest := _dest e;
  _data := {| chapters := Dict.set n r (chapters (_data e));
              summary := summary (_data e) |};
  _write_json := _write_json e;
  _write_text := _write_text e;
|}.

Definition add_series_texts (summary : option string)
    (directory : option Path) : M unit :=
  e <- get_self ;;
  if negb (Py.truthy summary) || negb (_write_text e) then ret tt
  else
    let summary := default EmptyString summary in
    put_self (set_summary summary e) ;;;
    e <- get_self ;;
    let directory := resolve directory e in
    _aio_write (joinpath directory "summary.txt") summary
      default_mode default_end.

Definition add_chapter_details (chapter : ChapterInfo) (notes : string)
    (padding : Z) (directory : option Path) : M unit :=
  e <- get_self ;;
  put_self (set_chapter (number chapter)
              {| title := chapter_title chapter; notes := notes |} e) ;;;
  e <- get_self ;;
  if negb (_write_text e) then ret tt
  else
    let directory := resolve directory e in
    prefix <- lift (Py.fstring_0d (str_limit os) (number chapter) padding) ;;
    _aio_write (joinpath directory (prefix +:+ "_title.txt"))
      (chapter_title chapter) default_mode default_end ;;;
    if Py.truthy_str notes then
      prefix <- lift (Py.fstring_0d (str_limit os) (number chapter) padding) ;;
      _aio_write (joinpath directory (prefix +:+ "_notes.txt"))
        notes default_mode default_end
    else ret tt.

Definition write_data (directory : option Path) : M unit :=
  e <- get_self ;;
  if negb (_write_json e) then ret tt
  else
    let directory := resolve directory e in
    let data := Json.dumps (data_obj (_data e)) in
    _aio_write (joinpath directory "info.json") data default_mode EmptyString.

End Exporter.

(** ** Sessions: any sequence of calls on one exporter *)

Inductive call :=
| AddSeriesTexts (summary : option string) (directory : option Path)
| AddChapterDetails (chapter : ChapterInfo) (notes : string) (padding : Z)
    (directory : option Path)
| WriteData (directory : option Path).

Definition exec (os : OS) (c : call) : M unit :=
  match c with
  | AddSeriesTexts s d => add_series_texts os s d
  | AddChapterDetails ch n p d => add_chapter_details os ch n p d
  | WriteData d => write_data os d
  end.

(** The caller goes on with the next call whatever the outcome of the
    previous one was. *)
Fixpoint run (os : OS) (cs : list call) (st : state) : state :=
  match cs with
  | [] => st
  | c :: cs' => run os cs' (final (exec os c st))
  end.

Definition start (fmt : TextExporterFormat) (dest : option Path)
    (fs : FileSystem) : state :=
  {| self := new fmt dest; disk := fs |}.

Definition empty_disk : FileSystem :=
  {| files := ∅; dirs := ∅; journal := [] |}.

(** The calls carried out between two states of the disk. *)
Definition new_calls (before after : FileSystem) : list Syscall :=
  drop (length (journal before)) (journal after).

Definition is_write_to (p : Path) (c : Syscall) : bool :=
  match c with
  | SysWrite q _ => bool_decide (p = q)
  | _ => false
  end.

(** ** The layout of [info.json] in the words of the specification *)

Module Layout.

Definition LF : string := Json.str1 Json.LF.

Fixpoint indent (level : nat) : string :=
  match level with
  | O => EmptyString
  | S l => "    " +:+ indent l
  end.

(** A key between double quotes. *)
Definition key (k : string) : string :=
  String Json.quote (k +:+ Json.str1 Json.quote).

(** A JSON string literal. *)
Definition lit (s : string) : string := Json.py_encode_basestring_ascii s.

Definition chapter_text (kr : Z * ExportChapterData) : string :=
  indent 2 +:+ key (Py.str_of_int (fst kr)) +:+ ": {" +:+ LF
  +:+ indent 3 +:+ key "notes" +:+ ": " +:+ lit (notes (snd kr)) +:+ "," +:+ LF
  +:+ indent 3 +:+ key "title" +:+ ": " +:+ lit (title (snd kr)) +:+ LF
  +:+ indent 2 +:+ "}".

Fixpoint join_lines (l : list string) : string :=
  match l with
  | [] => EmptyString
  | [x] => x
  | x :: l' => x +:+ "," +:+ LF +:+ join_lines l'
  end.

Definition chapters_text (cs : list (Z * ExportChapterData)) : string :=
  match cs with
  | [] => "{}"
  | _ => "{" +:+ LF +:+ join_lines (map chapter_text cs) +:+ LF
         +:+ indent 1 +:+ "}"
  end.

(** The text of the file for the chapters in a given order. *)
Definition info_text (cs : list (Z * ExportChapterData)) (s : string)
  : string :=
  "{" +:+ LF
  +:+ indent 1 +:+ key "chapters" +:+ ": " +:+ chapters_text cs +:+ "," +:+ LF
  +:+ indent 1 +:+ key "summary" +:+ ": " +:+ lit s +:+ LF
  +:+ "}".

(** Chapters by ascending number. *)
Definition by_number (cs : list (Z * ExportChapterData)) :=
  Json.sorted Z.leb cs.


(** The document of one record and of the whole file, for the chapters
    in a given order. *)
Definition chapter_doc (r : ExportChapterData) : Json.json :=
  Json.JObject [("notes"%string, Json.JString (notes r));
                ("title"%string, Json.JString (title r))].

Definition entry_doc (kr : Z * ExportChapterData) : string * Json.json :=
  (Py.str_of_int (fst kr), chapter_doc (snd kr)).

Definition info_doc (cs : list (Z * ExportChapterData)) (s : string)
  : Json.json :=
  Json.JObject [("chapters"%string, Json.JObject (map entry_doc cs));
                ("summary"%string, Json.JString s)].



End Layout.

(** ** Reading [info.json] back *)

Module Reader.







End Reader.

(** ** Cooperation and failure of the operating system *)

(** No call that [_aio_write] makes on [target] fails, and the locale
    can encode what is written. *)
Definition cooperative (os : OS) (target : Path) : Prop :=
  (forall fs, mkdir_fault os fs (parent target) = None)
  /\ (forall fs m, open_fault os fs target m = None)
  /\ (forall payload, encodable os payload = true)
  /\ (forall fs payload, write_fault os fs target payload = None).

(** A disk on which every file refuses to be opened. *)
Definition read_only : OS := {|
  mkdir_fault := fun _ _ => None;
  open_fault := fun _ _ _ => Some Py.PermissionError;
  write_fault := fun _ _ _ => None;
  encodable := fun _ => true;
  str_limit := Z.to_N Py.maxsize;
|}.



(** The state after the directory was made, and after the file was opened. *)
Definition after_mkdir (p : Path) (st : state) : state :=
  {| self := self st;
     disk := {| files := files (disk st);
                dirs := dirs (disk st) ∪ list_to_set (with_parents p);
                journal := journal (disk st) ++ [SysMkdir p] |} |}.

Definition after_open (target : Path) (mode : OpenMode) (st : state) : state :=
  {| self := self st;
     disk := {| files :=
                  <[target := match mode with
                              | ModeW => EmptyString
                              | ModeA => default EmptyString
                                           (files (disk st) !! target)
                              end]> (files (disk st));
                dirs := dirs (disk st);
                journal := journal (disk st) ++ [SysOpen target mode] |} |}.

(** The disk after a successful [_aio_write] of [payload] to [target]. *)
Definition written (target : Path) (mode : OpenMode) (payload : string)
    (fs : FileSystem) : FileSystem := {|
  files :=
    <[target := match mode with
                | ModeW => EmptyString
                | ModeA => default EmptyString (files fs !! target)
                end +:+ payload]> (files fs);
  dirs := dirs fs ∪ list_to_set (with_parents (parent target));
  journal := journal fs ++ [SysMkdir (parent target); SysOpen target mode;
                            SysWrite target payload];
|}.

(** The configuration derived at construction. *)
Definition config (e : TextExporter) : TextExporterFormat * Path * bool * bool :=
  (export_format e, _dest e, _write_json e, _write_text e).


(** The padding is a width that [format] accepts, and the runtime can
    allocate the prefix it asks for. *)
Definition formattable (os : OS) (n padding : Z) : Prop :=
  padding <= Py.maxsize
  /\ (N.max (Z.to_N padding)
            (N.of_nat (String.length (Py.str_of_int n))) <= str_limit os)%N.

(** ** Zero padding in the words of the specification *)

Module Padding.

(** A decimal numeral filled with zeros on the left up to a width; a
    minus sign stays in front and counts for the width. *)
Definition zero_padded (width : nat) (s : string) : string :=
  match s with
  | String "-" ds => String "-" (Py.zeros (width - String.length s) +:+ ds)
  | _ => Py.zeros (width - String.length s) +:+ s
  end.

End Padding.



(** ** Names used when stating what the operations do *)

(** The state in which the exporter is [e]. *)
Definition with_self (e : TextExporter) (st : state) : state :=
  {| self := e; disk := disk st |}.

(** The record that [add_chapter_details] stores. *)
Definition record_of (chapter : ChapterInfo) (notes : string) :=
  {| title := chapter_title chapter; notes := notes |}.

(** The two files of a chapter. *)
Definition title_path (chapter : ChapterInfo) (padding : Z)
    (directory : option Path) (e : TextExporter) : Path :=
  joinpath (resolve directory e)
    (Padding.zero_padded (Z.to_nat padding) (Py.str_of_int (number chapter))
     +:+ "_title.txt").

Definition notes_path (chapter : ChapterInfo) (padding : Z)
    (directory : option Path) (e : TextExporter) : Path :=
  joinpath (resolve directory e)
    (Padding.zero_padded (Z.to_nat padding) (Py.str_of_int (number chapter))
     +:+ "_notes.txt").

(** The item of a chapter as the encoder joins it. *)
Definition item_of (level : nat) (kr : Z * ExportChapterData) : string * string :=
  (Py.str_of_int (fst kr), Json.render level (Layout.chapter_doc (snd kr))).



Definition info_path (directory : option Path) (e : TextExporter) : Path :=
  joinpath (resolve directory e) "info.json".


(** ** Names used when stating how calls compose *)

(** The record that the last [add_chapter_details] for the number [n]
    stored, [acc] when there was none. *)
Fixpoint last_record (n : Z) (cs : list call) (acc : option ExportChapterData)
  : option ExportChapterData :=
  match cs with
  | [] => acc
  | AddChapterDetails ch notes _ _ :: cs' =>
      last_record n cs'
        (if decide (number ch = n) then Some (record_of ch notes) else acc)
  | _ :: cs' => last_record n cs' acc
  end.

(** The last summary that was not empty, [acc] when there was none. *)
Fixpoint last_summary (cs : list call) (acc : string) : string :=
  match cs with
  | [] => acc
  | AddSeriesTexts s _ :: cs' =>
      last_summary cs' (if Py.truthy s then default EmptyString s else acc)
  | _ :: cs' => last_summary cs' acc
  end.

Definition directory_of (c : call) : option Path :=
  match c with
  | AddSeriesTexts _ d => d
  | AddChapterDetails _ _ _ d => d
  | WriteData d => d
  end.

(** The names of the files that a call may write. *)
Definition names_of (c : call) (name : string) : Prop :=
  match c with
  | AddSeriesTexts _ _ => name = "summary.txt"%string
  | AddChapterDetails ch _ p _ =>
      let prefix := Padding.zero_padded (Z.to_nat p) (Py.str_of_int (number ch)) in
      name = prefix +:+ "_title.txt" \/ name = prefix +:+ "_notes.txt"
  | WriteData _ => name = "info.json"%string
  end.




(** Nothing was removed between two states of the disk. *)
Definition keeps (before after : FileSystem) : Prop :=
  (forall p, is_Some (files before !! p) -> is_Some (files after !! p))
  /\ dirs before ⊆ dirs after.



(** A locale whose encoding is ASCII: a text with a character above 127
    cannot be encoded. *)
Fixpoint all_ascii (s : string) : bool :=
  match s with
  | EmptyString => true
  | String c s' => (N_of_ascii c <? 128)%N && all_ascii s'
  end.

Definition ascii_locale : OS := {|
  mkdir_fault := fun _ _ => None;
  open_fault := fun _ _ _ => None;
  write_fault := fun _ _ _ => None;
  encodable := all_ascii;
  str_limit := Z.to_N Py.maxsize;
|}.

(** * Properties *)

#[local] Arguments String.append !_ _ : simpl nomatch.

Lemma append_assoc (a b c : string) : (a +:+ b) +:+ c = a +:+ b +:+ c.
Proof. induction a; simpl; congruence. Qed.

Ltac norm_string :=
  repeat first [rewrite !append_assoc | progress simpl].


Lemma length_append (a b : string) :
  String.length (a +:+ b) = (String.length a + String.length b)%nat.
Proof. induction a; simpl; congruence. Qed.

(** ** Decimal numerals and the format specification *)

Section PyFacts.

Import Py.

Lemma span_digits_uint (d : Decimal.uint) (c : ascii) (rest : string) :
  is_digit c = false ->
  span_digits (NilEmpty.string_of_uint d +:+ String c rest)
  = (NilEmpty.string_of_uint d, String c rest).
Proof.
  intros Hc. induction d; simpl; rewrite ?IHd; try reflexivity.
  now rewrite Hc.
Qed.

Lemma string_of_uint_nonnil (d : Decimal.uint) :
  d <> Decimal.Nil ->
  NilZero.string_of_uint d = NilEmpty.string_of_uint d.
Proof. destruct d; simpl; congruence. Qed.

Lemma string_of_uint_nonempty (d : Decimal.uint) :
  d <> Decimal.Nil -> NilEmpty.string_of_uint d <> EmptyString.
Proof. destruct d; simpl; congruence. Qed.

Lemma to_uint_nonnil (n : N) : N.to_uint n <> Decimal.Nil.
Proof.
  destruct n; simpl; [discriminate|]. apply Unsigned.to_uint_nonnil.
Qed.

(** The numeral of a non-negative integer is the numeral of a natural
    number: digits only. *)
Lemma str_of_int_nonneg (z : Z) :
  0 <= z ->
  str_of_int z = NilEmpty.string_of_uint (N.to_uint (Z.to_N z)).
Proof.
  intros Hz. unfold str_of_int.
  destruct z as [|q|q]; try lia; simpl; try reflexivity.
  apply string_of_uint_nonnil, Unsigned.to_uint_nonnil.
Qed.

Lemma str_of_int_neg (z : Z) :
  z < 0 -> str_of_int z = String "-" (str_of_int (Z.abs z)).
Proof.
  intros Hz. unfold str_of_int. destruct z as [|q|q]; try lia. reflexivity.
Qed.

Lemma digits_head (d : Decimal.uint) :
  d <> Decimal.Nil ->
  exists c t, NilEmpty.string_of_uint d = String c t /\ is_digit c = true.
Proof.
  destruct d; simpl; try congruence; intros _; eauto.
Qed.



(** The specification [0{padding}d] of a padding from 0 to [sys.maxsize]
    is read as: zero flag, width [padding], type [d]. *)
Lemma parse_format_spec_0d (padding : Z) :
  0 <= padding <= maxsize ->
  parse_format_spec ("0" +:+ str_of_int padding +:+ "d")
  = inr {| zero_flag := true; width := Some (Z.to_N padding);
           type := Some "d"%char |}.
Proof.
  intros Hp. rewrite str_of_int_nonneg by lia.
  unfold parse_format_spec. cbn [String.append].
  rewrite span_digits_uint by reflexivity.
  pose proof (string_of_uint_nonempty _ (to_uint_nonnil (Z.to_N padding))) as Hne.
  destruct (NilEmpty.string_of_uint (N.to_uint (Z.to_N padding))) eqn:E;
    [congruence|].
  rewrite <- E, NilEmpty.usu. cbn [option_map].
  rewrite DecimalN.Unsigned.of_to. cbn [too_many_digits].
  destruct (Z.ltb_spec maxsize (Z.of_N (Z.to_N padding))); [lia|reflexivity].
Qed.

(** A padding above [sys.maxsize] has too many digits. *)
Lemma parse_format_spec_too_wide (padding : Z) :
  maxsize < padding ->
  parse_format_spec ("0" +:+ str_of_int padding +:+ "d") = inl ValueError.
Proof.
  intros Hp. assert (0 <= padding) by (unfold maxsize in Hp; lia).
  rewrite str_of_int_nonneg by lia.
  unfold parse_format_spec. cbn [String.append].
  rewrite span_digits_uint by reflexivity.
  pose proof (string_of_uint_nonempty _ (to_uint_nonnil (Z.to_N padding))) as Hne.
  destruct (NilEmpty.string_of_uint (N.to_uint (Z.to_N padding))) eqn:E;
    [congruence|].
  rewrite <- E, NilEmpty.usu. cbn [option_map].
  rewrite DecimalN.Unsigned.of_to. cbn [too_many_digits].
  destruct (Z.ltb_spec maxsize (Z.of_N (Z.to_N padding))); [reflexivity|lia].
Qed.

(** A negative padding gives a specification that is not accepted. *)
Lemma fstring_0d_negative (limit : N) (n padding : Z) :
  padding < 0 -> fstring_0d limit n padding = inl ValueError.
Proof.
  intros Hp. unfold fstring_0d, format_int.
  rewrite (str_of_int_neg padding) by assumption.
  rewrite str_of_int_nonneg by lia.
  unfold parse_format_spec. cbn [String.append].
  destruct (digits_head _ (to_uint_nonnil (Z.to_N (Z.abs padding))))
    as (c & t & -> & Hc).
  reflexivity.
Qed.

Lemma fstring_0d_too_wide (limit : N) (n padding : Z) :
  maxsize < padding -> fstring_0d limit n padding = inl ValueError.
Proof.
  intros Hp. unfold fstring_0d, format_int.
  now rewrite parse_format_spec_too_wide.
Qed.

Lemma str_of_int_sign (n : Z) :
  str_of_int n
  = (if n <? 0 then "-"%string else EmptyString) +:+ str_of_int (Z.abs n).
Proof.
  destruct (Z.ltb_spec n 0) as [Hn|Hn].
  - now rewrite (str_of_int_neg n).
  - now rewrite Z.abs_eq.
Qed.

(** The numeral filled with zeros: the sign, the zeros, the digits. *)
Lemma zero_padded_sign_form (w : nat) (n : Z) :
  Padding.zero_padded w (str_of_int n)
  = (if n <? 0 then "-"%string else EmptyString)
    +:+ zeros (w - String.length (if n <? 0 then "-"%string else EmptyString)
               - String.length (str_of_int (Z.abs n)))
    +:+ str_of_int (Z.abs n).
Proof.
  destruct (Z.ltb_spec n 0) as [Hn|Hn].
  - rewrite (str_of_int_neg n) by assumption.
    cbn [Padding.zero_padded String.length String.append].
    do 3 f_equal. lia.
  - rewrite Z.abs_eq by assumption.
    rewrite (str_of_int_nonneg n) by assumption.
    destruct (digits_head _ (to_uint_nonnil (Z.to_N n))) as (c & t & E & Hc).
    rewrite E. unfold Padding.zero_padded.
    destruct c as [[] [] [] [] [] [] [] []]; try discriminate Hc;
      cbn [String.append String.length]; now rewrite Nat.sub_0_r.
Qed.

(** The f-string for a padding from 0 to [sys.maxsize]: a [MemoryError]
    when the prefix is longer than the runtime can allocate, and else the
    numeral filled with zeros. *)
Lemma fstring_0d_eq (limit : N) (n padding : Z) :
  0 <= padding <= maxsize ->
  fstring_0d limit n padding
  = if (limit <? N.max (Z.to_N padding)
                   (N.of_nat (String.length (str_of_int n))))%N
    then inl MemoryError
    else inr (Padding.zero_padded (Z.to_nat padding) (str_of_int n)).
Proof.
  intros Hp. unfold fstring_0d, format_int.
  rewrite parse_format_spec_0d by assumption. simpl type. cbv iota.
  cbn [zero_flag width].
  rewrite (str_of_int_sign n) at 1. rewrite length_append.
  destruct (N.ltb _ _); [reflexivity|].
  rewrite zero_padded_sign_form. now rewrite Z_N_nat.
Qed.

Lemma fstring_0d_zero_padded (limit : N) (n padding : Z) :
  0 <= padding <= maxsize ->
  (N.max (Z.to_N padding) (N.of_nat (String.length (str_of_int n))) <= limit)%N ->
  fstring_0d limit n padding
  = inr (Padding.zero_padded (Z.to_nat padding) (str_of_int n)).
Proof.
  intros Hp Hl. rewrite fstring_0d_eq by assumption.
  destruct (N.ltb_spec limit
              (N.max (Z.to_N padding) (N.of_nat (String.length (str_of_int n)))));
    [lia|reflexivity].
Qed.

Lemma fstring_0d_memory (limit : N) (n padding : Z) :
  0 <= padding <= maxsize ->
  (limit < N.max (Z.to_N padding) (N.of_nat (String.length (str_of_int n))))%N ->
  fstring_0d limit n padding = inl MemoryError.
Proof.
  intros Hp Hl. rewrite fstring_0d_eq by assumption.
  destruct (N.ltb_spec limit
              (N.max (Z.to_N padding) (N.of_nat (String.length (str_of_int n)))));
    [reflexivity|lia].
Qed.

(** Only a padding from 0 to [sys.maxsize] gives a prefix. *)
Lemma fstring_0d_inr (limit : N) (n padding : Z) (s : string) :
  fstring_0d limit n padding = inr s ->
  0 <= padding <= maxsize
  /\ s = Padding.zero_padded (Z.to_nat padding) (str_of_int n).
Proof.
  intros H. destruct (Z.ltb_spec padding 0) as [Hn|Hn].
  { rewrite fstring_0d_negative in H by assumption. discriminate. }
  destruct (Z.ltb_spec maxsize padding) as [Hw|Hw].
  { rewrite fstring_0d_too_wide in H by assumption. discriminate. }
  split; [lia|]. rewrite fstring_0d_eq in H by lia.
  destruct (N.ltb _ _); [discriminate|]. now injection H.
Qed.

End PyFacts.

(** ** The write primitive *)

Ltac solve_formattable :=
  split; [unfold Py.maxsize; lia | vm_compute; discriminate].

Ltac case_faults :=
  repeat match goal with
    | |- context [match ?f with Some _ => _ | None => _ end] =>
        destruct f as [[? ?]|] eqn:? || destruct f eqn:?
    | |- context [if negb (encodable ?o ?t) then _ else _] =>
        destruct (encodable o t) eqn:?; cbn [negb]
    end.

Section Primitive.

Variable os : OS.

Lemma aio_write_self target data mode end_ st :
  self (final (_aio_write os target data mode end_ st)) = self st.
Proof.
  unfold _aio_write, bind, mkdir_p, open_, write, final.
  case_faults; reflexivity.
Qed.

Lemma written_after target mode payload st :
  {| files :=
       <[target := default EmptyString
                     (files (disk (after_open target mode
                                     (after_mkdir (parent target) st)))
                      !! target) +:+ payload]>
         (files (disk (after_open target mode
                         (after_mkdir (parent target) st))));
     dirs := dirs (disk (after_open target mode
                           (after_mkdir (parent target) st)));
     journal := journal (disk (after_open target mode
                                 (after_mkdir (parent target) st)))
                ++ [SysWrite target payload] |}
  = written target mode payload (disk st).
Proof.
  unfold written, after_open, after_mkdir; simpl.
  rewrite lookup_insert_eq, insert_insert_eq. simpl.
  f_equal. now rewrite <- !app_assoc.
Qed.

(** A successful write leaves exactly the disk [written]. *)
Lemma aio_write_ok_inv target data mode end_ st st' :
  _aio_write os target data mode end_ st = (inr tt, st') ->
  st' = {| self := self st;
           disk := written target mode (data +:+ end_) (disk st) |}.
Proof.
  unfold _aio_write, bind, mkdir_p, open_, write.
  case_faults; try discriminate.
  intros [= <-]. f_equal. apply (written_after target mode _ st).
Qed.

Lemma aio_write_cooperative target data mode end_ st :
  cooperative os target ->
  _aio_write os target data mode end_ st
  = (inr tt, {| self := self st;
                disk := written target mode (data +:+ end_) (disk st) |}).
Proof.
  intros (Hm & Ho & He & Hw).
  unfold _aio_write, bind, mkdir_p, open_, write.
  rewrite Hm. simpl. rewrite Ho. simpl. rewrite He, Hw. simpl.
  do 2 f_equal. apply (written_after target mode _ st).
Qed.






(** Only the target can change among the files, whatever the outcome. *)
Lemma aio_write_files_other target data mode end_ st p :
  p <> target ->
  files (disk (final (_aio_write os target data mode end_ st))) !! p
  = files (disk st) !! p.
Proof.
  intros Hp.
  unfold _aio_write, bind, mkdir_p, open_, write, final.
  case_faults; simpl; rewrite ?lookup_insert_ne by congruence; reflexivity.
Qed.

End Primitive.

(** ** Dictionaries *)

Section DictFacts.
Context {K V : Type} `{EqDecision K}.
Implicit Types (d : Dict.t K V) (k : K) (v : V).

Lemma get_set_eq d k v : Dict.get k (Dict.set k v d) = Some v.
Proof.
  induction d as [|[k' v'] d IH]; simpl.
  - now rewrite decide_True.
  - destruct (decide (k = k')) as [->|Hne]; simpl.
    + now rewrite decide_True.
    + now rewrite decide_False.
Qed.

Lemma get_set_ne d k k' v :
  k' <> k -> Dict.get k' (Dict.set k v d) = Dict.get k' d.
Proof.
  intros Hne. induction d as [|[k0 v0] d IH]; simpl.
  - now rewrite decide_False.
  - destruct (decide (k = k0)) as [->|Hk]; simpl.
    + now rewrite !decide_False.
    + destruct (decide (k' = k0)); [reflexivity | exact IH].
Qed.

Lemma keys_set_in d k v :
  k ∈ Dict.keys d -> Dict.keys (Dict.set k v d) = Dict.keys d.
Proof.
  unfold Dict.keys.
  induction d as [|[k0 v0] d IH]; simpl; [now intros ?%elem_of_nil|].
  intros Hin. destruct (decide (k = k0)) as [->|Hk]; simpl; [reflexivity|].
  f_equal. apply IH. apply elem_of_cons in Hin. destruct Hin; congruence.
Qed.

Lemma set_notin d k v :
  k ∉ Dict.keys d -> Dict.set k v d = d ++ [(k, v)].
Proof.
  unfold Dict.keys.
  induction d as [|[k0 v0] d IH]; simpl; [reflexivity|].
  intros Hin. apply not_elem_of_cons in Hin as [Hk Hin].
  rewrite decide_False by assumption. f_equal. now apply IH.
Qed.

Lemma keys_set_notin d k v :
  k ∉ Dict.keys d -> Dict.keys (Dict.set k v d) = Dict.keys d ++ [k].
Proof.
  intros Hin. rewrite set_notin by assumption.
  unfold Dict.keys. now rewrite map_app.
Qed.

(** Assignment keeps the keys distinct. *)
Lemma NoDup_keys_set d k v :
  NoDup (Dict.keys d) -> NoDup (Dict.keys (Dict.set k v d)).
Proof.
  intros Hnd. destruct (decide (k ∈ Dict.keys d)) as [Hin|Hin].
  - now rewrite keys_set_in.
  - rewrite keys_set_notin by assumption.
    apply NoDup_app. repeat split; auto.
    + intros x Hx Hk. apply list_elem_of_singleton in Hk. congruence.
    + apply NoDup_singleton.
Qed.

Lemma get_in_keys d k v : Dict.get k d = Some v -> k ∈ Dict.keys d.
Proof.
  unfold Dict.keys.
  induction d as [|[k0 v0] d IH]; simpl; [discriminate|].
  destruct (decide (k = k0)) as [->|Hk]; intros H.
  - apply list_elem_of_here.
  - apply list_elem_of_further. auto.
Qed.



End DictFacts.

(** ** The three operations, equation by equation *)

Section Operations.

Variable os : OS.

Lemma with_self_id st : with_self (self st) st = st.
Proof. now destruct st. Qed.

Lemma add_series_texts_skip summary directory st :
  Py.truthy summary = false \/ _write_text (self st) = false ->
  add_series_texts os summary directory st = (inr tt, st).
Proof.
  intros H. unfold add_series_texts, bind, get_self; simpl.
  destruct H as [-> | ->]; simpl; rewrite ?orb_true_r; reflexivity.
Qed.

Lemma add_series_texts_go summary directory st :
  Py.truthy summary = true -> _write_text (self st) = true ->
  add_series_texts os summary directory st
  = _aio_write os
      (joinpath (resolve directory (self st)) "summary.txt")
      (default EmptyString summary) default_mode default_end
      (with_self (set_summary (default EmptyString summary) (self st)) st).
Proof.
  intros H1 H2. unfold add_series_texts, bind, get_self; simpl.
  rewrite H1, H2; simpl. destruct directory; reflexivity.
Qed.

Lemma add_chapter_details_skip chapter notes padding directory st :
  _write_text (self st) = false ->
  add_chapter_details os chapter notes padding directory st
  = (inr tt,
     with_self (set_chapter (number chapter) (record_of chapter notes)
                  (self st)) st).
Proof.
  intros H. unfold add_chapter_details, bind, get_self, put_self; simpl.
  now rewrite H.
Qed.

(** When the prefix cannot be formatted the error of [format] is the
    outcome, after the record was stored and before any call on the disk. *)
Lemma add_chapter_details_no_prefix chapter notes padding directory st e :
  _write_text (self st) = true ->
  Py.fstring_0d (str_limit os) (number chapter) padding = inl e ->
  add_chapter_details os chapter notes padding directory st
  = (inl e,
     with_self (set_chapter (number chapter) (record_of chapter notes)
                  (self st)) st).
Proof.
  intros H Hp. unfold add_chapter_details, bind, get_self, put_self, lift; simpl.
  rewrite H; simpl. now rewrite Hp.
Qed.

Lemma add_chapter_details_bad_padding chapter notes padding directory st :
  _write_text (self st) = true -> padding < 0 \/ Py.maxsize < padding ->
  add_chapter_details os chapter notes padding directory st
  = (inl Py.ValueError,
     with_self (set_chapter (number chapter) (record_of chapter notes)
                  (self st)) st).
Proof.
  intros H [Hp|Hp]; apply add_chapter_details_no_prefix; try assumption.
  - now apply fstring_0d_negative.
  - now apply fstring_0d_too_wide.
Qed.

Lemma add_chapter_details_go_prefix chapter notes padding directory st s :
  _write_text (self st) = true ->
  Py.fstring_0d (str_limit os) (number chapter) padding = inr s ->
  add_chapter_details os chapter notes padding directory st
  = match
      _aio_write os (title_path chapter padding directory (self st))
        (chapter_title chapter) default_mode default_end
        (with_self (set_chapter (number chapter) (record_of chapter notes)
                      (self st)) st)
    with
    | (inr _, st2) =>
        if Py.truthy_str notes
        then _aio_write os (notes_path chapter padding directory (self st))
               notes default_mode default_end st2
        else (inr tt, st2)
    | (inl e, st2) => (inl e, st2)
    end.
Proof.
  intros H Hp. unfold add_chapter_details, bind, get_self, put_self, lift; simpl.
  rewrite H; simpl. rewrite Hp.
  apply fstring_0d_inr in Hp as [_ ->].
  unfold title_path, notes_path.
  replace (resolve directory (set_chapter _ _ (self st)))
    with (resolve directory (self st)) by now destruct directory.
  destruct (_aio_write _ _ _ _ _ _) as [[e|[]] st2]; [reflexivity|].
  destruct (Py.truthy_str notes); reflexivity.
Qed.

Lemma formattable_prefix chapter padding :
  0 <= padding -> formattable os (number chapter) padding ->
  Py.fstring_0d (str_limit os) (number chapter) padding
  = inr (Padding.zero_padded (Z.to_nat padding) (Py.str_of_int (number chapter))).
Proof.
  intros Hp [Hm Hl]. apply fstring_0d_zero_padded; [lia|exact Hl].
Qed.

Lemma add_chapter_details_go chapter notes padding directory st :
  _write_text (self st) = true -> 0 <= padding ->
  formattable os (number chapter) padding ->
  add_chapter_details os chapter notes padding directory st
  = match
      _aio_write os (title_path chapter padding directory (self st))
        (chapter_title chapter) default_mode default_end
        (with_self (set_chapter (number chapter) (record_of chapter notes)
                      (self st)) st)
    with
    | (inr _, st2) =>
        if Py.truthy_str notes
        then _aio_write os (notes_path chapter padding directory (self st))
               notes default_mode default_end st2
        else (inr tt, st2)
    | (inl e, st2) => (inl e, st2)
    end.
Proof.
  intros H Hp Hf.
  apply (add_chapter_details_go_prefix _ _ _ _ _ _ H
           (formattable_prefix chapter padding Hp Hf)).
Qed.

Lemma write_data_skip directory st :
  _write_json (self st) = false -> write_data os directory st = (inr tt, st).
Proof.
  intros H. unfold write_data, bind, get_self; simpl. now rewrite H.
Qed.

Lemma write_data_go directory st :
  _write_json (self st) = true ->
  write_data os directory st
  = _aio_write os (joinpath (resolve directory (self st)) "info.json")
      (Json.dumps (data_obj (_data (self st)))) default_mode EmptyString st.
Proof.
  intros H. unfold write_data, bind, get_self; simpl. now rewrite H.
Qed.

(** What each operation does to the exporter, whatever the outcome. *)
Lemma add_series_texts_self summary directory st :
  self (final (add_series_texts os summary directory st))
  = if Py.truthy summary && _write_text (self st)
    then set_summary (default EmptyString summary) (self st)
    else self st.
Proof.
  destruct (Py.truthy summary) eqn:H1; [destruct (_write_text (self st)) eqn:H2|].
  - rewrite add_series_texts_go by assumption. now rewrite aio_write_self.
  - rewrite add_series_texts_skip by auto. reflexivity.
  - rewrite add_series_texts_skip by auto. reflexivity.
Qed.

Lemma add_chapter_details_self chapter notes padding directory st :
  self (final (add_chapter_details os chapter notes padding directory st))
  = set_chapter (number chapter) (record_of chapter notes) (self st).
Proof.
  destruct (_write_text (self st)) eqn:H.
  - destruct (Py.fstring_0d (str_limit os) (number chapter) padding)
      as [e|s] eqn:Hp.
    + now rewrite (add_chapter_details_no_prefix _ _ _ _ _ _ H Hp).
    + rewrite (add_chapter_details_go_prefix _ _ _ _ _ _ H Hp).
      match goal with
      | |- context [_aio_write os ?t ?d ?m ?e ?s] =>
          pose proof (aio_write_self os t d m e s) as H1;
          destruct (_aio_write os t d m e s) as [[err|[]] st2]
      end; simpl in H1; [exact H1|].
      destruct (Py.truthy_str notes); [|exact H1].
      now rewrite aio_write_self.
  - now rewrite add_chapter_details_skip.
Qed.

Lemma write_data_self directory st :
  self (final (write_data os directory st)) = self st.
Proof.
  destruct (_write_json (self st)) eqn:H.
  - rewrite write_data_go by assumption. apply aio_write_self.
  - now rewrite write_data_skip.
Qed.

End Operations.

(** ** Outcomes: what is raised, and by whom *)

Section Outcomes.

Variable os : OS.






End Outcomes.

(** ** The journal of a write *)

Lemma new_calls_app fs l :
  forall after, journal after = journal fs ++ l -> new_calls fs after = l.
Proof. intros after H. unfold new_calls. rewrite H. apply drop_app_length. Qed.

Lemma new_calls_written target mode payload fs :
  new_calls fs (written target mode payload fs)
  = [SysMkdir (parent target); SysOpen target mode; SysWrite target payload].
Proof. now apply new_calls_app. Qed.

Lemma new_calls_written2 t1 m1 p1 t2 m2 p2 fs :
  new_calls fs (written t2 m2 p2 (written t1 m1 p1 fs))
  = [SysMkdir (parent t1); SysOpen t1 m1; SysWrite t1 p1;
     SysMkdir (parent t2); SysOpen t2 m2; SysWrite t2 p2].
Proof. apply new_calls_app. simpl. now rewrite <- app_assoc. Qed.

Lemma files_written_w target payload fs :
  files (written target default_mode payload fs) = <[target := payload]> (files fs).
Proof. reflexivity. Qed.

Lemma title_notes_paths_differ chapter padding directory e :
  title_path chapter padding directory e <> notes_path chapter padding directory e.
Proof.
  unfold title_path, notes_path, joinpath. intros H.
  apply app_inv_head in H. injection H as H.
  apply String.app_inj in H. discriminate.
Qed.

Lemma truthy_str_true (s : string) : Py.truthy_str s = true <-> s <> EmptyString.
Proof. unfold Py.truthy_str. destruct s; simpl; split; congruence. Qed.

(** ** The series summary *)

(** C8: when the summary is empty or absent, or when text output is off,
    [add_series_texts] raises nothing and leaves the exporter and the disk
    as they were: no field of the aggregate changes, no file is written,
    no call reaches the operating system. *)
Theorem add_series_texts_noop os summary directory st :
  Py.truthy summary = false \/ _write_text (self st) = false ->
  add_series_texts os summary directory st = (inr tt, st).
Proof. apply add_series_texts_skip. Qed.

Lemma add_series_texts_noop_witness :
  add_series_texts read_only (Some EmptyString) None (start All None empty_disk)
  = (inr tt, start All None empty_disk)
  /\ add_series_texts read_only (Some "A story"%string) (Some ["out"%string])
       (start JSON None empty_disk)
     = (inr tt, start JSON None empty_disk).
Proof.
  split.
  - apply add_series_texts_noop. left. reflexivity.
  - apply add_series_texts_noop. right. reflexivity.
Defined.

(** C1 (the code departs from it): under the format [json] a non-empty
    summary is not stored; the call returns at once, [summary] keeps its
    initial empty value, and the [info.json] written afterwards carries an
    empty summary.  Under the same format [add_chapter_details] does store
    its record. *)
Theorem summary_lost_under_json os s directory dest fs :
  let st := start JSON dest fs in
  add_series_texts os (Some s) directory st = (inr tt, st)
  /\ summary (_data (self (final (add_series_texts os (Some s) directory st))))
     = EmptyString
  /\ forall chapter notes padding,
       Dict.get (number chapter)
         (chapters (_data (self (final
            (add_chapter_details os chapter notes padding directory st)))))
       = Some (record_of chapter notes).
Proof.
  intros st. assert (H : add_series_texts os (Some s) directory st = (inr tt, st)).
  { apply add_series_texts_skip. right. reflexivity. }
  split; [exact H|]. split; [now rewrite H|].
  intros. rewrite add_chapter_details_self. simpl. now rewrite decide_True.
Qed.

(** ** Frames *)

Lemma exec_config os c st :
  config (self (final (exec os c st))) = config (self st).
Proof.
  destruct c; simpl.
  - rewrite add_series_texts_self. now destruct (_ && _).
  - now rewrite add_chapter_details_self.
  - now rewrite write_data_self.
Qed.

(** C10: [add_series_texts] leaves the chapters alone,
    [add_chapter_details] leaves the summary alone, [write_data] leaves the
    whole exporter alone, and no call, and no sequence of calls, changes
    the format, the destination or the two flags derived from the format. *)
Theorem operations_frame os st :
  (forall s d,
     chapters (_data (self (final (add_series_texts os s d st))))
     = chapters (_data (self st)))
  /\ (forall ch n p d,
        summary (_data (self (final (add_chapter_details os ch n p d st))))
        = summary (_data (self st)))
  /\ (forall d, self (final (write_data os d st)) = self st)
  /\ (forall c, config (self (final (exec os c st))) = config (self st))
  /\ (forall cs, config (self (run os cs st)) = config (self st)).
Proof.
  repeat split.
  - intros. rewrite add_series_texts_self. now destruct (_ && _).
  - intros. now rewrite add_chapter_details_self.
  - intros. apply write_data_self.
  - intros. apply exec_config.
  - intros cs. revert st. induction cs as [|c cs IH]; intros st; simpl.
    + reflexivity.
    + rewrite IH. apply exec_config.
Qed.

(** ** Chapter details *)

Lemma is_write_to_same p payload : is_write_to p (SysWrite p payload) = true.
Proof. simpl. now apply bool_decide_eq_true_2. Qed.

Lemma is_write_to_other p q payload :
  p <> q -> is_write_to p (SysWrite q payload) = false.
Proof. intros H. simpl. now apply bool_decide_eq_false_2. Qed.

(** C3: the record [{title, notes}] is stored under the number of the
    chapter whatever the format and the outcome.  With text output off the
    call then returns: the disk is untouched.  With text output on, a
    padding from 0 to [sys.maxsize] whose prefix the runtime can allocate,
    and a cooperating operating system, the title
    file holds the title and a newline, and the notes file is written if
    and only if the notes are not empty; no other file changes. *)
Theorem add_chapter_details_spec os chapter notes padding directory st :
  let r := add_chapter_details os chapter notes padding directory st in
  let tp := title_path chapter padding directory (self st) in
  let np := notes_path chapter padding directory (self st) in
  Dict.get (number chapter) (chapters (_data (self (final r))))
  = Some (record_of chapter notes)
  /\ (_write_text (self st) = false ->
      outcome r = inr tt /\ disk (final r) = disk st)
  /\ (_write_text (self st) = true -> 0 <= padding ->
      formattable os (number chapter) padding ->
      cooperative os tp -> cooperative os np ->
      outcome r = inr tt
      /\ files (disk (final r)) !! tp = Some (chapter_title chapter +:+ default_end)
      /\ existsb (is_write_to tp) (new_calls (disk st) (disk (final r))) = true
      /\ (existsb (is_write_to np) (new_calls (disk st) (disk (final r))) = true
          <-> notes <> EmptyString)
      /\ (notes <> EmptyString ->
          files (disk (final r)) !! np = Some (notes +:+ default_end))
      /\ (notes = EmptyString ->
          files (disk (final r)) !! np = files (disk st) !! np)
      /\ (forall p, p <> tp -> p <> np ->
          files (disk (final r)) !! p = files (disk st) !! p)).
Proof.
  intros r tp np. subst r. split; [|split].
  - rewrite add_chapter_details_self. simpl. apply get_set_eq.
  - intros H. now rewrite add_chapter_details_skip.
  - intros H Hp Hf Ct Cn.
    pose proof (title_notes_paths_differ chapter padding directory (self st)) as Hne.
    fold tp np in Hne.
    rewrite add_chapter_details_go by assumption. fold tp np.
    rewrite (aio_write_cooperative os tp) by assumption.
    destruct (Py.truthy_str notes) eqn:Hn.
    + rewrite (aio_write_cooperative os np) by assumption.
      apply truthy_str_true in Hn.
      unfold outcome, final. cbn [fst snd disk self].
      rewrite new_calls_written2. cbn [existsb].
      rewrite !is_write_to_same, !orb_true_r.
      rewrite !files_written_w. cbn [disk with_self].
      repeat split; auto.
      * rewrite lookup_insert_ne by congruence. now rewrite lookup_insert_eq.
      * now rewrite lookup_insert_eq.
      * congruence.
      * intros p H1 H2. now rewrite !lookup_insert_ne by congruence.
    + assert (Hn' : notes = EmptyString).
      { destruct notes; [reflexivity|discriminate]. }
      unfold outcome, final. cbn [fst snd disk self].
      rewrite new_calls_written. cbn [existsb].
      rewrite is_write_to_same, is_write_to_other by congruence.
      rewrite !files_written_w. cbn [disk with_self orb].
      repeat split; auto; try congruence.
      * now rewrite lookup_insert_eq.
      * intros _. rewrite lookup_insert_ne by congruence. reflexivity.
      * intros p H1 H2. now rewrite lookup_insert_ne by congruence.
Qed.

Lemma add_chapter_details_spec_witness :
  let st := start All None empty_disk in
  let ch := {| number := 7; chapter_title := "Seven" |} in
  let r := add_chapter_details reliable ch EmptyString 3 None st in
  outcome r = inr tt
  /\ files (disk (final r)) !! ["007_title.txt"%string]
     = Some ("Seven" +:+ default_end)
  /\ files (disk (final r)) !! ["007_notes.txt"%string] = None.
Proof.
  intros st ch r.
  destruct (add_chapter_details_spec reliable ch EmptyString 3 None st)
    as (_ & _ & H).
  destruct H as (H1 & H2 & _ & _ & _ & H3 & _).
  - reflexivity.
  - lia.
  - solve_formattable.
  - repeat split.
  - repeat split.
  - split; [exact H1|]. split; [exact H2|]. exact (H3 eq_refl).
Defined.

(** ** The keys of the chapters *)

Lemma exec_chapters_NoDup os c st :
  NoDup (Dict.keys (chapters (_data (self st)))) ->
  NoDup (Dict.keys (chapters (_data (self (final (exec os c st)))))).
Proof.
  intros H. destruct c; simpl.
  - rewrite add_series_texts_self. now destruct (_ && _).
  - rewrite add_chapter_details_self. simpl. now apply NoDup_keys_set.
  - now rewrite write_data_self.
Qed.

Lemma run_chapters_NoDup os cs st :
  NoDup (Dict.keys (chapters (_data (self st)))) ->
  NoDup (Dict.keys (chapters (_data (self (run os cs st))))).
Proof.
  revert st. induction cs as [|c cs IH]; intros st H; simpl; [exact H|].
  apply IH. now apply exec_chapters_NoDup.
Qed.

Lemma start_chapters_NoDup fmt dest fs :
  NoDup (Dict.keys (chapters (_data (self (start fmt dest fs))))).
Proof. simpl. apply NoDup_nil_2. Qed.

Lemma one_entry_per_key {V} (d : Dict.t Z V) (k : Z) :
  NoDup (Dict.keys d) -> k ∈ Dict.keys d ->
  length (List.filter (fun kv => bool_decide (fst kv = k)) d) = 1%nat.
Proof.
  unfold Dict.keys. induction d as [|[k0 v0] d IH]; simpl.
  - now intros _ ?%elem_of_nil.
  - intros [Hk0 Hnd]%NoDup_cons Hin. destruct (decide (k0 = k)) as [->|Hk].
    + rewrite bool_decide_eq_true_2 by reflexivity. simpl. f_equal.
      clear IH Hin Hnd. induction d as [|[k1 v1] d IH]; simpl; [reflexivity|].
      apply not_elem_of_cons in Hk0 as [H1 H2]. simpl in *.
      rewrite bool_decide_eq_false_2 by congruence. now apply IH.
    + rewrite bool_decide_eq_false_2 by assumption.
      apply IH; [assumption|].
      apply elem_of_cons in Hin as [Hin|Hin]; [congruence|assumption].
Qed.

(** C4: after any sequence of calls on a new exporter the keys of
    [chapters] are pairwise distinct, and one more [add_chapter_details]
    for a number leaves exactly one entry for it, the new record as a
    whole, with every other entry as it was and no entry added when the
    number was present. *)
Theorem chapters_keys_unique os fmt dest fs cs :
  let st := run os cs (start fmt dest fs) in
  NoDup (Dict.keys (chapters (_data (self st))))
  /\ forall chapter notes padding directory,
      let d := chapters (_data (self st)) in
      let d' := chapters (_data (self (final
                  (add_chapter_details os chapter notes padding directory st)))) in
      Dict.get (number chapter) d' = Some (record_of chapter notes)
      /\ (forall k, k <> number chapter -> Dict.get k d' = Dict.get k d)
      /\ NoDup (Dict.keys d')
      /\ length (List.filter (fun kv => bool_decide (fst kv = number chapter)) d')
         = 1%nat
      /\ (number chapter ∈ Dict.keys d -> Dict.keys d' = Dict.keys d).
Proof.
  intros st.
  assert (Hnd : NoDup (Dict.keys (chapters (_data (self st))))).
  { apply run_chapters_NoDup, start_chapters_NoDup. }
  split; [exact Hnd|]. intros chapter notes padding directory d d'.
  subst d d'. rewrite add_chapter_details_self. simpl.
  assert (Hget := get_set_eq (chapters (_data (self st))) (number chapter)
                    (record_of chapter notes)).
  assert (Hnd' := NoDup_keys_set (chapters (_data (self st))) (number chapter)
                    (record_of chapter notes) Hnd).
  repeat split; auto.
  - intros k Hk. now apply get_set_ne.
  - apply one_entry_per_key; [assumption|]. eapply get_in_keys, Hget.
  - intros Hin. now apply keys_set_in.
Qed.

Lemma chapters_keys_unique_witness :
  let ch := {| number := 5; chapter_title := "Five" |} in
  let st := run reliable [AddChapterDetails ch "a" 0 None]
              (start All None empty_disk) in
  let d' := chapters (_data (self (final
              (add_chapter_details reliable ch "b" 0 None st)))) in
  Dict.get 5 d' = Some {| title := "Five"; notes := "b" |}
  /\ length (List.filter (fun kv => bool_decide (fst kv = 5)) d') = 1%nat
  /\ Dict.keys d' = [5].
Proof.
  intros ch st d'.
  destruct (chapters_keys_unique reliable All None empty_disk
              [AddChapterDetails ch "a" 0 None]) as [_ H].
  destruct (H ch "b"%string 0 None) as (H1 & _ & _ & H4 & H5).
  split; [exact H1|]. split; [exact H4|].
  apply H5. apply list_elem_of_here.
Defined.

(** ** Errors *)




(** ** File name prefixes *)






(** ** The encoder: sorting, documents and layout *)

Section JsonFacts.

Import Json.

Lemma pyobj_ind' (P : pyobj -> Prop) :
  (forall s, P (PyStr s)) ->
  (forall d, Forall (fun kv => P (snd kv)) d -> P (PyDictStr d)) ->
  (forall d, Forall (fun kv => P (snd kv)) d -> P (PyDictInt d)) ->
  forall o, P o.
Proof.
  intros Hs Hd Hi. fix IH 1. intros [s|d|d].
  - apply Hs.
  - apply Hd. induction d as [|[k v] d IHd]; constructor; [apply IH|exact IHd].
  - apply Hi. induction d as [|[k v] d IHd]; constructor; [apply IH|exact IHd].
Qed.


Section SortedFacts.
Context {K V W : Type} (le : K -> K -> bool) (f : V -> W).

Lemma insert_item_map (x : K * V) (l : list (K * V)) :
  insert_item le (fst x, f (snd x)) (map (fun kv => (fst kv, f (snd kv))) l)
  = map (fun kv => (fst kv, f (snd kv))) (insert_item le x l).
Proof.
  induction l as [|y l IH]; simpl; [reflexivity|].
  destruct (le (fst x) (fst y)); simpl; [reflexivity|]. now rewrite IH.
Qed.

(** Sorting looks at the keys only. *)
Lemma sorted_map (l : list (K * V)) :
  sorted le (map (fun kv => (fst kv, f (snd kv))) l)
  = map (fun kv => (fst kv, f (snd kv))) (sorted le l).
Proof.
  induction l as [|x l IH]; simpl; [reflexivity|].
  now rewrite IH, insert_item_map.
Qed.
End SortedFacts.



Lemma map_ext_Forall {A B} (f g : A -> B) (l : list A) :
  Forall (fun x => f x = g x) l -> map f l = map g l.
Proof. induction 1; simpl; congruence. Qed.

(** The encoder writes the layout of the normalised document. *)
Lemma iterencode_render o :
  forall level, _iterencode o level = render level (normalise o).
Proof.
  induction o as [s|d IH|d IH] using pyobj_ind'; intros level; simpl.
  - reflexivity.
  - f_equal.
    rewrite <- (sorted_map String.leb (render (S level))).
    rewrite map_map. f_equal. apply map_ext_Forall.
    eapply Forall_impl; [exact IH|]. simpl. intros [k v] H. simpl. now rewrite H.
  - f_equal. rewrite map_map. simpl.
    rewrite <- (map_map (fun kv => (fst kv, render (S level) (snd kv)))
                        (fun kc => (_intstr (fst kc), snd kc))).
    f_equal.
    rewrite <- (sorted_map Z.leb (render (S level))).
    rewrite map_map. f_equal. apply map_ext_Forall.
    eapply Forall_impl; [exact IH|]. simpl. intros [k v] H. simpl. now rewrite H.
Qed.

Lemma dumps_render o : dumps o = render 0 (normalise o).
Proof. apply iterencode_render. Qed.

Lemma normalise_chapter_obj r :
  normalise (chapter_obj r) = Layout.chapter_doc r.
Proof. reflexivity. Qed.

Lemma normalise_data_obj d :
  normalise (data_obj d)
  = Layout.info_doc (Layout.by_number (chapters d)) (summary d).
Proof.
  unfold data_obj, Layout.info_doc, Layout.by_number.
  change (normalise (PyDictStr ?l))
    with (JObject (sorted String.leb
                     (map (fun kv => (fst kv, normalise (snd kv))) l))).
  cbn [map fst snd]. cbn [sorted insert_item fst snd].
  change (String.leb "chapters" "summary") with true. cbv iota.
  do 3 f_equal.
  change (normalise (PyDictInt ?l))
    with (JObject (map (fun kc => (_intstr (fst kc), snd kc))
                     (sorted Z.leb
                        (map (fun kv => (fst kv, normalise (snd kv))) l)))).
  f_equal. rewrite map_map. cbn [fst snd].
  rewrite (sorted_map Z.leb (fun r => normalise (chapter_obj r))).
  rewrite map_map. reflexivity.
Qed.

End JsonFacts.

(** ** The text of [info.json] *)

Section LayoutFacts.

Import Json.

Lemma escape_uint (d : Decimal.uint) :
  escape_ascii_sub (NilEmpty.string_of_uint d) = NilEmpty.string_of_uint d.
Proof. induction d; simpl; congruence. Qed.

(** A decimal numeral needs no escape. *)
Lemma escape_str_of_int (n : Z) :
  escape_ascii_sub (Py.str_of_int n) = Py.str_of_int n.
Proof.
  unfold Py.str_of_int. destruct n as [|q|q]; simpl; try reflexivity.
  - rewrite string_of_uint_nonnil by apply Unsigned.to_uint_nonnil.
    apply escape_uint.
  - rewrite string_of_uint_nonnil by apply Unsigned.to_uint_nonnil.
    change (String "-" ?x) with ("-" +:+ x). f_equal. apply escape_uint.
Qed.

Lemma encode_numeral (n : Z) :
  py_encode_basestring_ascii (Py.str_of_int n) = Layout.key (Py.str_of_int n).
Proof.
  unfold py_encode_basestring_ascii, Layout.key. now rewrite escape_str_of_int.
Qed.

Lemma chapter_line (kr : Z * ExportChapterData) (rest : string) :
  Layout.indent 2
  +:+ py_encode_basestring_ascii (fst (item_of 2 kr)) +:+ key_separator
  +:+ snd (item_of 2 kr) +:+ rest
  = Layout.chapter_text kr +:+ rest.
Proof.
  unfold item_of, Layout.chapter_text. cbn [fst snd].
  rewrite encode_numeral.
  unfold Layout.chapter_doc, render, _iterencode_dict. cbn [map fst snd].
  unfold join_items, Layout.lit, Layout.key, key_separator, item_separator.
  norm_string. reflexivity.
Qed.

Lemma join_items_one sep (kc : string * string) :
  join_items sep [kc]
  = py_encode_basestring_ascii (fst kc) +:+ key_separator +:+ snd kc.
Proof. now destruct kc. Qed.

Lemma join_items_more sep (kc kc' : string * string) l :
  join_items sep (kc :: kc' :: l)
  = py_encode_basestring_ascii (fst kc) +:+ key_separator +:+ snd kc
    +:+ sep +:+ join_items sep (kc' :: l).
Proof. now destruct kc. Qed.

Lemma newline_indent_2 rest :
  newline_indent 2 +:+ rest = Layout.LF +:+ Layout.indent 2 +:+ rest.
Proof. reflexivity. Qed.

Lemma join_chapters c cs rest :
  Layout.indent 2
  +:+ join_items (item_separator +:+ newline_indent 2)
        (map (item_of 2) (c :: cs)) +:+ rest
  = Layout.join_lines (map Layout.chapter_text (c :: cs)) +:+ rest.
Proof.
  revert c rest. induction cs as [|c' cs IH]; intros c rest.
  - cbn [map]. rewrite join_items_one. cbn [Layout.join_lines].
    rewrite !append_assoc. apply chapter_line.
  - cbn [map] in *. rewrite join_items_more.
    change (Layout.join_lines (?x :: ?y :: ?l))
      with (x +:+ "," +:+ Layout.LF +:+ Layout.join_lines (y :: l)).
    rewrite !append_assoc. rewrite chapter_line.
    f_equal. unfold item_separator.
    change ("," +:+ ?x) with (String "," x). cbn [String.append]. f_equal.
    rewrite newline_indent_2. change (Layout.LF +:+ ?x) with (String LF x).
    cbn [String.append]. f_equal. apply IH.
Qed.

Lemma render_chapters cs :
  render 1 (JObject (map Layout.entry_doc cs)) = Layout.chapters_text cs.
Proof.
  change (render 1 (JObject ?ms))
    with (_iterencode_dict (map (fun kv => (fst kv, render 2 (snd kv))) ms) 1).
  rewrite map_map.
  change (map _ cs) with (map (item_of 2) cs).
  destruct cs as [|c cs]; [reflexivity|].
  unfold _iterencode_dict, Layout.chapters_text.
  cbn [map]. change (map (item_of 2) cs) with (tl (map (item_of 2) (c :: cs))).
  change (item_of 2 c :: tl (map (item_of 2) (c :: cs)))
    with (map (item_of 2) (c :: cs)).
  change (Layout.chapter_text c :: map Layout.chapter_text cs)
    with (map Layout.chapter_text (c :: cs)).
  change ("{" +:+ ?x) with (String "{" x). f_equal.
  rewrite newline_indent_2.
  change (Layout.LF +:+ ?x) with (String LF x). f_equal.
  rewrite join_chapters. reflexivity.
Qed.

(** The layout of the document of the file is the text that the
    specification describes. *)
Lemma render_info_doc cs s :
  render 0 (Layout.info_doc cs s) = Layout.info_text cs s.
Proof.
  unfold Layout.info_doc.
  change (render 0 (JObject [(?k1, ?j1); (?k2, ?j2)]))
    with (_iterencode_dict [(k1, render 1 j1); (k2, render 1 j2)] 0).
  rewrite render_chapters.
  unfold _iterencode_dict, Layout.info_text. rewrite join_items_more, join_items_one.
  cbn [fst snd render].
  unfold Layout.lit, Layout.key, key_separator, item_separator.
  norm_string. reflexivity.
Qed.

Lemma dumps_info_text d :
  dumps (data_obj d)
  = Layout.info_text (Layout.by_number (chapters d)) (summary d).
Proof. now rewrite dumps_render, normalise_data_obj, render_info_doc. Qed.

End LayoutFacts.

(** ** The decoder reads back what the encoder lays out *)

Section DecoderFacts.

Import Json.

















End DecoderFacts.

(** ** Reading the file back *)

Section ReaderFacts.

Import Json.







End ReaderFacts.

(** ** Order of the chapters *)

Section OrderFacts.

Import Json.

Context {V : Type}.
Implicit Types (l : list (Z * V)).



Lemma keys_perm l l' : l ≡ₚ l' -> Dict.keys l ≡ₚ Dict.keys l'.
Proof. intros H. unfold Dict.keys. now apply Permutation_map. Qed.



End OrderFacts.

(** ** Writing [info.json] *)









(** * Further properties of the module *)

(** ** The summary file *)

(** X1: with text output on, a summary that is not empty and a
    cooperating operating system, [add_series_texts] succeeds, stores the
    summary in place of the former one, leaves the chapters alone and puts
    the summary and a newline in [summary.txt] of the directory given, or
    of the destination when none is given; no other file changes. *)
Theorem add_series_texts_stores_and_writes os s directory st :
  Py.truthy s = true ->
  _write_text (self st) = true ->
  cooperative os (joinpath (resolve directory (self st)) "summary.txt") ->
  let r := add_series_texts os s directory st in
  outcome r = inr tt
  /\ summary (_data (self (final r))) = default EmptyString s
  /\ chapters (_data (self (final r))) = chapters (_data (self st))
  /\ files (disk (final r))
     = <[joinpath (resolve directory (self st)) "summary.txt"
         := default EmptyString s +:+ default_end]> (files (disk st)).
Proof.
  intros Hs Hw Hc r. subst r.
  rewrite add_series_texts_go by assumption.
  rewrite (aio_write_cooperative os _ _ _ _ _ Hc).
  unfold outcome, final. cbn [fst snd self disk with_self].
  rewrite files_written_w. repeat split; reflexivity.
Qed.

Lemma add_series_texts_stores_and_writes_witness :
  let st := start Text (Some ["out"%string]) empty_disk in
  let r := add_series_texts reliable (Some "A story"%string) None st in
  outcome r = inr tt
  /\ summary (_data (self (final r))) = "A story"%string
  /\ files (disk (final r)) !! ["out"%string; "summary.txt"%string]
     = Some ("A story" +:+ default_end).
Proof.
  intros st r.
  destruct (add_series_texts_stores_and_writes reliable
              (Some "A story"%string) None st eq_refl eq_refl)
    as (H1 & H2 & _ & H4); [repeat split|].
  split; [exact H1|]. split; [exact H2|].
  fold r in H4. rewrite H4. now rewrite lookup_insert_eq.
Defined.

(** ** Sessions *)

Lemma run_write_text os cs st :
  _write_text (self (run os cs st)) = _write_text (self st).
Proof.
  revert st. induction cs as [|c cs IH]; intros st; simpl; [reflexivity|].
  rewrite IH. pose proof (exec_config os c st) as H.
  unfold config in H. congruence.
Qed.

Lemma exec_summary os c st :
  summary (_data (self (final (exec os c st))))
  = if _write_text (self st)
    then last_summary [c] (summary (_data (self st)))
    else summary (_data (self st)).
Proof.
  destruct c as [s d|ch n p d|d]; simpl.
  - rewrite add_series_texts_self.
    destruct (Py.truthy s), (_write_text (self st)); reflexivity.
  - rewrite add_chapter_details_self. simpl. now destruct (_write_text (self st)).
  - rewrite write_data_self. now destruct (_write_text (self st)).
Qed.

Lemma run_summary os cs st :
  summary (_data (self (run os cs st)))
  = if _write_text (self st)
    then last_summary cs (summary (_data (self st)))
    else summary (_data (self st)).
Proof.
  revert st. induction cs as [|c cs IH]; intros st.
  - simpl. now destruct (_write_text (self st)).
  - cbn [run]. rewrite IH, exec_summary.
    pose proof (exec_config os c st) as H. unfold config in H.
    injection H as _ _ _ ->.
    destruct (_write_text (self st)); [|reflexivity].
    destruct c; reflexivity.
Qed.

(** X2: after any sequence of calls on a new exporter, whatever failed on
    the way, the summary of the aggregate is the last summary that was
    not empty when the format enables text output, and is empty when it
    does not. *)
Theorem summary_after_session os fmt dest fs cs :
  summary (_data (self (run os cs (start fmt dest fs))))
  = if in_text_all fmt then last_summary cs EmptyString else EmptyString.
Proof. rewrite run_summary. reflexivity. Qed.

Lemma exec_get os c st n :
  Dict.get n (chapters (_data (self (final (exec os c st)))))
  = last_record n [c] (Dict.get n (chapters (_data (self st)))).
Proof.
  destruct c as [s d|ch notes p d|d]; simpl.
  - rewrite add_series_texts_self. now destruct (_ && _).
  - rewrite add_chapter_details_self. simpl.
    destruct (decide (number ch = n)) as [<-|Hne].
    + apply get_set_eq.
    + apply get_set_ne. congruence.
  - now rewrite write_data_self.
Qed.

Lemma run_get os cs st n :
  Dict.get n (chapters (_data (self (run os cs st))))
  = last_record n cs (Dict.get n (chapters (_data (self st)))).
Proof.
  revert st. induction cs as [|c cs IH]; intros st; [reflexivity|].
  cbn [run]. rewrite IH, exec_get. destruct c; reflexivity.
Qed.

(** X3: after any sequence of calls on a new exporter, whatever the
    format and whatever failed on the way, the record under a chapter
    number is the one of the last [add_chapter_details] for that number,
    and there is none when no call was for it. *)
Theorem chapters_after_session os fmt dest fs cs n :
  Dict.get n (chapters (_data (self (run os cs (start fmt dest fs)))))
  = last_record n cs None.
Proof. rewrite run_get. reflexivity. Qed.

(** ** Padding and file names *)

(** X4: with a negative padding and text output on,
    [add_chapter_details] raises [ValueError] from the format
    specification after it has stored the record, and touches nothing on
    the disk; with text output off the padding is never formatted and the
    call succeeds. *)
Theorem add_chapter_details_negative_padding os chapter notes padding directory st :
  padding < 0 ->
  let r := add_chapter_details os chapter notes padding directory st in
  outcome r = (if _write_text (self st) then inl Py.ValueError else inr tt)
  /\ disk (final r) = disk st
  /\ Dict.get (number chapter) (chapters (_data (self (final r))))
     = Some (record_of chapter notes).
Proof.
  intros Hp r. subst r. destruct (_write_text (self st)) eqn:Hw.
  - rewrite add_chapter_details_bad_padding by auto.
    unfold outcome, final. cbn [fst snd self disk with_self set_chapter _data chapters].
    repeat split. apply get_set_eq.
  - rewrite add_chapter_details_skip by assumption.
    unfold outcome, final. cbn [fst snd self disk with_self set_chapter _data chapters].
    repeat split. apply get_set_eq.
Qed.

Lemma add_chapter_details_negative_padding_witness :
  let st := start All None empty_disk in
  let ch := {| number := 7; chapter_title := "Seven" |} in
  let r := add_chapter_details reliable ch "note" (-1) None st in
  outcome r = inl Py.ValueError
  /\ disk (final r) = empty_disk
  /\ Dict.get 7 (chapters (_data (self (final r))))
     = Some {| title := "Seven"; notes := "note" |}.
Proof.
  intros st ch r.
  exact (add_chapter_details_negative_padding reliable ch "note"%string (-1)
           None st ltac:(lia)).
Defined.

Lemma title_path_same_number ch ch' padding directory e e' :
  number ch' = number ch -> _dest e' = _dest e ->
  title_path ch' padding directory e' = title_path ch padding directory e
  /\ notes_path ch' padding directory e' = notes_path ch padding directory e.
Proof.
  intros Hn Hd. unfold title_path, notes_path. rewrite Hn.
  destruct directory; simpl; rewrite ?Hd; split; reflexivity.
Qed.

(** X5: when a chapter is added with notes and then added again, with the
    same padding (from 0 to [sys.maxsize], its prefix within what the
    runtime can allocate) and directory, with empty notes, the record and
    the title
    file are those of the second call, but the notes file of the first
    call stays on the disk with the first notes. *)
Theorem empty_notes_keep_old_notes_file os ch ch' notes padding directory st :
  number ch' = number ch ->
  notes <> EmptyString ->
  _write_text (self st) = true ->
  0 <= padding ->
  formattable os (number ch) padding ->
  cooperative os (title_path ch padding directory (self st)) ->
  cooperative os (notes_path ch padding directory (self st)) ->
  let st1 := final (add_chapter_details os ch notes padding directory st) in
  let r := add_chapter_details os ch' EmptyString padding directory st1 in
  outcome r = inr tt
  /\ Dict.get (number ch) (chapters (_data (self (final r))))
     = Some {| title := chapter_title ch'; notes := EmptyString |}
  /\ files (disk (final r)) !! title_path ch padding directory (self st)
     = Some (chapter_title ch' +:+ default_end)
  /\ files (disk (final r)) !! notes_path ch padding directory (self st)
     = Some (notes +:+ default_end).
Proof.
  intros Hn Hnotes Hw Hp Hf Ct Cn st1 r.
  assert (Hf' : formattable os (number ch') padding) by now rewrite Hn.
  pose proof (title_notes_paths_differ ch padding directory (self st)) as Hne.
  assert (E1 : st1
               = {| self := set_chapter (number ch) (record_of ch notes) (self st);
                    disk := written (notes_path ch padding directory (self st))
                              default_mode (notes +:+ default_end)
                              (written (title_path ch padding directory (self st))
                                 default_mode (chapter_title ch +:+ default_end)
                                 (disk st)) |}).
  { subst st1. rewrite add_chapter_details_go by assumption.
    rewrite (aio_write_cooperative os _ _ _ _ _ Ct).
    apply truthy_str_true in Hnotes. rewrite Hnotes.
    now rewrite (aio_write_cooperative os _ _ _ _ _ Cn). }
  assert (Hw1 : _write_text (self st1) = true) by (rewrite E1; exact Hw).
  destruct (title_path_same_number ch ch' padding directory (self st) (self st1) Hn)
    as [Et _]; [now rewrite E1|].
  subst r. rewrite add_chapter_details_go by assumption.
  rewrite Et. rewrite (aio_write_cooperative os _ _ _ _ _ Ct).
  change (Py.truthy_str EmptyString) with false. cbv iota.
  unfold outcome, final. cbn [fst snd self disk with_self].
  rewrite E1. cbn [self disk]. rewrite !files_written_w.
  split; [reflexivity|]. split; [|split].
  - cbn [set_chapter _data chapters]. rewrite Hn. apply get_set_eq.
  - now rewrite lookup_insert_eq.
  - rewrite lookup_insert_ne by exact Hne. now rewrite lookup_insert_eq.
Qed.

Lemma empty_notes_keep_old_notes_file_witness :
  let st := start All None empty_disk in
  let ch := {| number := 5; chapter_title := "Five" |} in
  let st1 := final (add_chapter_details reliable ch "a" 0 None st) in
  let r := add_chapter_details reliable ch EmptyString 0 None st1 in
  Dict.get 5 (chapters (_data (self (final r))))
  = Some {| title := "Five"; notes := EmptyString |}
  /\ files (disk (final r)) !! ["5_notes.txt"%string] = Some ("a" +:+ default_end).
Proof.
  intros st ch st1 r.
  destruct (empty_notes_keep_old_notes_file reliable ch ch "a"%string 0 None st)
    as (_ & H2 & _ & H4).
  - reflexivity.
  - discriminate.
  - reflexivity.
  - lia.
  - solve_formattable.
  - repeat split.
  - repeat split.
  - split; [exact H2|exact H4].
Defined.

Lemma uint_of_string_zeros k t :
  NilEmpty.uint_of_string (Py.zeros k +:+ t)
  = option_map (Nat.iter k Decimal.D0) (NilEmpty.uint_of_string t).
Proof.
  induction k as [|k IH]; simpl.
  - now destruct (NilEmpty.uint_of_string t).
  - rewrite IH. now destruct (NilEmpty.uint_of_string t).
Qed.

Lemma of_uint_zeros k d : Pos.of_uint (Nat.iter k Decimal.D0 d) = Pos.of_uint d.
Proof. induction k as [|k IH]; simpl; auto. Qed.

Lemma padded_digits_head k d :
  d <> Decimal.Nil ->
  exists c t, Py.zeros k +:+ NilEmpty.string_of_uint d = String c t
              /\ Ascii.eqb c "-" = false.
Proof.
  intros Hd. destruct k as [|k]; simpl.
  - destruct d; simpl; try congruence; eauto.
  - eauto.
Qed.

(** [int] reads a zero-filled numeral as the number itself. *)
Lemma int_of_padded (n : Z) (k : nat) :
  Py.int_of_str ((if n <? 0 then "-"%string else EmptyString)
                 +:+ Py.zeros k +:+ Py.str_of_int (Z.abs n)) = Some n.
Proof.
  rewrite str_of_int_nonneg by lia.
  set (d := N.to_uint (Z.to_N (Z.abs n))).
  assert (Hd : d <> Decimal.Nil) by apply to_uint_nonnil.
  assert (Hv : Z.of_uint (Nat.iter k Decimal.D0 d) = Z.abs n).
  { unfold Z.of_uint. rewrite of_uint_zeros. subst d.
    change (Pos.of_uint ?x) with (N.of_uint x).
    rewrite DecimalN.Unsigned.of_to. lia. }
  unfold Py.int_of_str. destruct (Z.ltb_spec n 0) as [Hn|Hn].
  - cbn [String.append NilZero.int_of_string]. change (Ascii.eqb "-" "-") with true.
    cbv iota. unfold NilZero.uint_of_string.
    destruct (padded_digits_head k d Hd) as (c & t & E & _).
    rewrite E, <- E, uint_of_string_zeros, NilEmpty.usu. simpl.
    rewrite Hv. f_equal. lia.
  - cbn [String.append].
    destruct (padded_digits_head k d Hd) as (c & t & E & Hc).
    rewrite E. cbn [NilZero.int_of_string]. rewrite Hc.
    unfold NilZero.uint_of_string.
    rewrite <- E, uint_of_string_zeros, NilEmpty.usu. simpl.
    rewrite Hv. f_equal. lia.
Qed.

Lemma zero_padded_reads_back (w : nat) (n : Z) :
  Py.int_of_str (Padding.zero_padded w (Py.str_of_int n)) = Some n.
Proof. rewrite zero_padded_sign_form. apply int_of_padded. Qed.

Lemma zero_padded_inj (n m : Z) (w : nat) :
  Padding.zero_padded w (Py.str_of_int n)
  = Padding.zero_padded w (Py.str_of_int m) ->
  n = m.
Proof.
  intros H. apply (f_equal Py.int_of_str) in H.
  rewrite !zero_padded_reads_back in H. congruence.
Qed.

Lemma append_inv_tail (a b s t : string) :
  String.length s = String.length t -> a +:+ s = b +:+ t -> a = b /\ s = t.
Proof.
  revert b. induction a as [|c a IH]; intros [|c' b] Hl H; simpl in H.
  - auto.
  - apply (f_equal String.length) in H. simpl in H. rewrite length_append in H. lia.
  - apply (f_equal String.length) in H. simpl in H. rewrite length_append in H. lia.
  - injection H as -> H. destruct (IH b Hl H) as [-> ->]. auto.
Qed.

Lemma chapter_paths_differ ch1 ch2 p directory e :
  number ch1 <> number ch2 ->
  title_path ch1 p directory e <> title_path ch2 p directory e
  /\ notes_path ch1 p directory e <> notes_path ch2 p directory e
  /\ title_path ch1 p directory e <> notes_path ch2 p directory e.
Proof.
  intros Hne. unfold title_path, notes_path, joinpath.
  repeat split; intros H; apply app_inv_head in H; injection H as H;
    apply append_inv_tail in H; try reflexivity; destruct H as [H H'].
  - now apply zero_padded_inj in H.
  - now apply zero_padded_inj in H.
  - discriminate H'.
Qed.

(** X6: a prefix that the f-string produces reads back, with [int], as
    the chapter number, so no other chapter number is given the same
    prefix by the same padding; with the same padding and directory the
    title and notes files of two chapters with different numbers, both
    given a prefix, are four different files. *)
Theorem prefix_reads_back limit n p s :
  Py.fstring_0d limit n p = inr s ->
  Py.int_of_str s = Some n
  /\ (forall m, Py.fstring_0d limit m p = inr s -> m = n)
  /\ (forall ch1 ch2 directory e s2,
        number ch1 = n -> number ch2 <> n ->
        Py.fstring_0d limit (number ch2) p = inr s2 ->
        s2 <> s
        /\ title_path ch1 p directory e <> title_path ch2 p directory e
        /\ notes_path ch1 p directory e <> notes_path ch2 p directory e
        /\ title_path ch1 p directory e <> notes_path ch2 p directory e
        /\ notes_path ch1 p directory e <> title_path ch2 p directory e).
Proof.
  intros Hs. apply fstring_0d_inr in Hs as [Hp ->]. split; [|split].
  - apply zero_padded_reads_back.
  - intros m H. apply fstring_0d_inr in H as [_ H].
    symmetry. now apply (zero_padded_inj n m (Z.to_nat p)).
  - intros ch1 ch2 directory e s2 H1 H2 Hs2.
    apply fstring_0d_inr in Hs2 as [_ ->].
    destruct (chapter_paths_differ ch1 ch2 p directory e) as (A & B & C);
      [congruence|].
    destruct (chapter_paths_differ ch2 ch1 p directory e) as (_ & _ & D);
      [congruence|].
    split; [|repeat split; auto].
    intros H. apply zero_padded_inj in H. congruence.
Qed.

Lemma prefix_reads_back_witness :
  Py.int_of_str "007" = Some 7
  /\ Py.int_of_str "-07" = Some (-7).
Proof.
  split.
  - exact (proj1 (prefix_reads_back 10 7 3 "007" eq_refl)).
  - exact (proj1 (prefix_reads_back 10 (-7) 3 "-07" eq_refl)).
Defined.

(** ** What the operations leave alone on the disk *)

Lemma keeps_refl fs : keeps fs fs.
Proof. split; [auto|set_solver]. Qed.

Lemma keeps_trans a b c : keeps a b -> keeps b c -> keeps a c.
Proof. intros [H1 H2] [H3 H4]. split; [auto|set_solver]. Qed.

Lemma aio_write_keeps os target data mode end_ st :
  keeps (disk st) (disk (final (_aio_write os target data mode end_ st))).
Proof.
  unfold _aio_write, bind, mkdir_p, open_, write, final.
  case_faults; simpl; split; simpl; try set_solver; try (intros; assumption);
    intros p Hp; destruct (decide (target = p)) as [->|Hne];
    rewrite ?lookup_insert_eq, ?lookup_insert_ne by assumption; eauto.
Qed.

Lemma exec_keeps os c st : keeps (disk st) (disk (final (exec os c st))).
Proof.
  destruct c as [s d|ch n p d|d]; simpl.
  - destruct (Py.truthy s) eqn:H1; [destruct (_write_text (self st)) eqn:H2|].
    + rewrite add_series_texts_go by assumption.
      apply (aio_write_keeps os _ _ _ _ (with_self _ st)).
    + rewrite add_series_texts_skip by auto. apply keeps_refl.
    + rewrite add_series_texts_skip by auto. apply keeps_refl.
  - destruct (_write_text (self st)) eqn:H.
    + destruct (Py.fstring_0d (str_limit os) (number ch) p) as [e|s] eqn:Hp.
      * rewrite (add_chapter_details_no_prefix _ _ _ _ _ _ _ H Hp).
        apply keeps_refl.
      * rewrite (add_chapter_details_go_prefix _ _ _ _ _ _ _ H Hp).
        match goal with
        | |- context [_aio_write os ?t ?d ?m ?e ?s] =>
            pose proof (aio_write_keeps os t d m e s) as H1;
            destruct (_aio_write os t d m e s) as [[err|[]] st2]
        end; [exact H1|].
        destruct (Py.truthy_str n); [|exact H1].
        eapply keeps_trans; [exact H1|]. apply aio_write_keeps.
    + rewrite add_chapter_details_skip by assumption. apply keeps_refl.
  - destruct (_write_json (self st)) eqn:H.
    + rewrite write_data_go by assumption. apply aio_write_keeps.
    + rewrite write_data_skip by assumption. apply keeps_refl.
Qed.

(** X7: no call, and no sequence of calls, removes anything: a file that
    exists stays a file and a directory stays a directory, whatever the
    operating system does and whatever fails. *)
Theorem session_never_removes os cs st :
  keeps (disk st) (disk (run os cs st))
  /\ forall c, keeps (disk st) (disk (final (exec os c st))).
Proof.
  split; [|intros c; apply exec_keeps].
  revert st. induction cs as [|c cs IH]; intros st; simpl.
  - apply keeps_refl.
  - eapply keeps_trans; [apply exec_keeps|apply IH].
Qed.

Lemma add_series_texts_files_other os s directory st p :
  p <> joinpath (resolve directory (self st)) "summary.txt" ->
  files (disk (final (add_series_texts os s directory st))) !! p
  = files (disk st) !! p.
Proof.
  intros Hp.
  destruct (Py.truthy s) eqn:H1; [destruct (_write_text (self st)) eqn:H2|].
  - rewrite add_series_texts_go by assumption.
    now rewrite aio_write_files_other.
  - now rewrite add_series_texts_skip by auto.
  - now rewrite add_series_texts_skip by auto.
Qed.

Lemma add_chapter_details_files_other os ch notes padding directory st p :
  p <> title_path ch padding directory (self st) ->
  p <> notes_path ch padding directory (self st) ->
  files (disk (final (add_chapter_details os ch notes padding directory st))) !! p
  = files (disk st) !! p.
Proof.
  intros Ht Hn. destruct (_write_text (self st)) eqn:H.
  - destruct (Py.fstring_0d (str_limit os) (number ch) padding)
      as [e|s] eqn:Hp.
    + now rewrite (add_chapter_details_no_prefix _ _ _ _ _ _ _ H Hp).
    + rewrite (add_chapter_details_go_prefix _ _ _ _ _ _ _ H Hp).
      match goal with
      | |- context [_aio_write os ?t ?d ?m ?e ?s] =>
          pose proof (aio_write_files_other os t d m e s p Ht) as H1;
          destruct (_aio_write os t d m e s) as [[err|[]] st2]
      end; [exact H1|].
      destruct (Py.truthy_str notes); [|exact H1].
      rewrite aio_write_files_other by assumption. exact H1.
  - now rewrite add_chapter_details_skip.
Qed.

Lemma write_data_files_other os directory st p :
  p <> info_path directory (self st) ->
  files (disk (final (write_data os directory st))) !! p = files (disk st) !! p.
Proof.
  intros Hp. destruct (_write_json (self st)) eqn:H.
  - rewrite write_data_go by assumption. now rewrite aio_write_files_other.
  - now rewrite write_data_skip.
Qed.

Lemma exec_changes os c st p :
  files (disk (final (exec os c st))) !! p <> files (disk st) !! p ->
  exists name,
    p = joinpath (resolve (directory_of c) (self st)) name /\ names_of c name.
Proof.
  destruct c as [s d|ch n pad d|d]; simpl; intros H.
  - destruct (decide (p = joinpath (resolve d (self st)) "summary.txt")) as [->|Hne].
    + eauto.
    + now rewrite add_series_texts_files_other in H.
  - destruct (decide (p = title_path ch pad d (self st))) as [->|Ht].
    { unfold title_path. eauto. }
    destruct (decide (p = notes_path ch pad d (self st))) as [->|Hn].
    { unfold notes_path. eauto. }
    now rewrite add_chapter_details_files_other in H.
  - destruct (decide (p = info_path d (self st))) as [->|Hne].
    + unfold info_path. eauto.
    + now rewrite write_data_files_other in H.
Qed.

Lemma parent_joinpath d name : parent (joinpath d name) = d.
Proof. unfold parent, joinpath. apply removelast_last. Qed.

(** X8: a call changes files in one directory only, the one it is given
    or else the destination of the exporter, and only under the names it
    is meant for: [summary.txt], the title and notes files of the chapter,
    [info.json]; this holds for every operating system and outcome. *)
Theorem writes_stay_in_directory os c st p :
  files (disk (final (exec os c st))) !! p <> files (disk st) !! p ->
  parent p = resolve (directory_of c) (self st)
  /\ exists name,
       p = joinpath (resolve (directory_of c) (self st)) name /\ names_of c name.
Proof.
  intros H. destruct (exec_changes os c st p H) as (name & -> & Hn).
  split; [apply parent_joinpath|eauto].
Qed.

Lemma writes_stay_in_directory_witness :
  let st := start All (Some ["out"%string]) empty_disk in
  let c := AddSeriesTexts (Some "A story"%string) None in
  parent ["out"%string; "summary.txt"%string] = ["out"%string].
Proof.
  intros st c.
  refine (proj1 (writes_stay_in_directory reliable c st
                   ["out"%string; "summary.txt"%string] _)).
  vm_compute. discriminate.
Defined.

(** ** Which format writes which file *)

Lemma last_joinpath d name : last (joinpath d name) = Some name.
Proof. unfold joinpath. apply last_snoc. Qed.

Lemma suffixed_not_info (prefix suffix : string) :
  (10 <= String.length suffix)%nat -> prefix +:+ suffix <> "info.json"%string.
Proof.
  intros Hl H. apply (f_equal String.length) in H.
  rewrite length_append in H. simpl in H. lia.
Qed.

Lemma exec_text_off os c st p :
  _write_text (self st) = false ->
  last p <> Some "info.json"%string ->
  files (disk (final (exec os c st))) !! p = files (disk st) !! p.
Proof.
  intros Hw Hp. destruct c as [s d|ch n pad d|d]; simpl.
  - now rewrite add_series_texts_skip by auto.
  - now rewrite add_chapter_details_skip.
  - apply write_data_files_other. intros ->. apply Hp.
    unfold info_path. apply last_joinpath.
Qed.

Lemma exec_json_off os c st p :
  _write_json (self st) = false ->
  last p = Some "info.json"%string ->
  files (disk (final (exec os c st))) !! p = files (disk st) !! p.
Proof.
  intros Hw Hp. destruct c as [s d|ch n pad d|d]; simpl.
  - apply add_series_texts_files_other. intros ->.
    rewrite last_joinpath in Hp. discriminate.
  - apply add_chapter_details_files_other; intros ->;
      unfold title_path, notes_path in Hp; rewrite last_joinpath in Hp;
      injection Hp as Hp; revert Hp; apply suffixed_not_info; simpl; lia.
  - now rewrite write_data_skip.
Qed.


Lemma run_files_unchanged os cs st p :
  (forall c st', _write_json (self st') = _write_json (self st) ->
                 _write_text (self st') = _write_text (self st) ->
                 files (disk (final (exec os c st'))) !! p = files (disk st') !! p) ->
  files (disk (run os cs st)) !! p = files (disk st) !! p.
Proof.
  intros H. revert st H. induction cs as [|c cs IH]; intros st H; simpl.
  - reflexivity.
  - pose proof (exec_config os c st) as Hc. unfold config in Hc.
    injection Hc as _ _ Hj Ht.
    rewrite IH.
    + now apply H.
    + intros c' st' H1 H2. apply H; congruence.
Qed.

(** X9: an exporter of format [json] never changes a file that is not
    named [info.json], and an exporter of format [text] never changes a
    file named [info.json], over any sequence of calls and whatever the
    operating system does. *)
Theorem format_decides_files os dest fs cs p :
  (last p <> Some "info.json"%string ->
   files (disk (run os cs (start JSON dest fs))) !! p = files fs !! p)
  /\ (last p = Some "info.json"%string ->
      files (disk (run os cs (start Text dest fs))) !! p = files fs !! p).
Proof.
  split; intros Hp.
  - rewrite run_files_unchanged; [reflexivity|].
    intros c st' _ Ht. now apply exec_text_off.
  - rewrite run_files_unchanged; [reflexivity|].
    intros c st' Hj _. now apply exec_json_off.
Qed.

Lemma format_decides_files_witness :
  let ch := {| number := 7; chapter_title := "Seven" |} in
  files (disk (run reliable [AddChapterDetails ch "note" 3 None; WriteData None]
                 (start JSON None empty_disk))) !! ["007_title.txt"%string] = None
  /\ files (disk (run reliable [AddChapterDetails ch "note" 3 None; WriteData None]
                    (start Text None empty_disk))) !! ["info.json"%string] = None.
Proof.
  intros ch. split.
  - refine (proj1 (format_decides_files reliable None empty_disk _ _) _).
    discriminate.
  - refine (proj2 (format_decides_files reliable None empty_disk _ _) _).
    reflexivity.
Defined.

(** ** The write primitive: modes, directories, failures *)

Lemma files_written_a target payload fs :
  files (written target ModeA payload fs)
  = <[target := default EmptyString (files fs !! target) +:+ payload]> (files fs).
Proof. reflexivity. Qed.

(** X10: in mode [a] the primitive adds to the end of the file, taking a
    missing file as empty, so two writes in a row leave the old content
    followed by both payloads with their terminators; in mode [w] a write
    replaces whatever the file held. *)
Theorem aio_write_modes os target d1 e1 d2 e2 st :
  cooperative os target ->
  let old := default EmptyString (files (disk st) !! target) in
  let st1 := final (_aio_write os target d1 ModeA e1 st) in
  files (disk st1) !! target = Some (old +:+ d1 +:+ e1)
  /\ files (disk (final (_aio_write os target d2 ModeA e2 st1))) !! target
     = Some (old +:+ d1 +:+ e1 +:+ d2 +:+ e2)
  /\ files (disk (final (_aio_write os target d2 ModeW e2 st1))) !! target
     = Some (d2 +:+ e2).
Proof.
  intros Hc old st1. subst st1.
  rewrite (aio_write_cooperative os _ _ _ _ _ Hc). unfold final. cbn [snd].
  rewrite !(aio_write_cooperative os _ _ _ _ _ Hc). cbn [snd disk].
  rewrite !files_written_a. rewrite files_written_w.
  rewrite !lookup_insert_eq. cbn [default]. fold old. unfold id.
  rewrite !append_assoc. auto.
Qed.

Lemma aio_write_modes_witness :
  let st := start All None empty_disk in
  let st1 := final (_aio_write reliable ["log"%string] "a" ModeA "," st) in
  files (disk st1) !! ["log"%string] = Some "a,"%string
  /\ files (disk (final (_aio_write reliable ["log"%string] "b" ModeA ";" st1)))
     !! ["log"%string] = Some "a,b;"%string.
Proof.
  intros st st1.
  destruct (aio_write_modes reliable ["log"%string] "a" "," "b" ";" st)
    as (H1 & H2 & _); [repeat split|].
  split; [exact H1|exact H2].
Defined.

Lemma with_parents_prefix (p q : Path) :
  q ∈ with_parents p <-> q `prefix_of` p.
Proof.
  revert q. induction p as [|c p IH]; intros q; simpl.
  - rewrite list_elem_of_singleton. split.
    + intros ->. reflexivity.
    + intros [k Hk]. symmetry in Hk. now apply app_eq_nil in Hk as [-> _].
  - rewrite elem_of_cons. split.
    + intros [->|H]; [apply prefix_nil|].
      apply list_elem_of_In, in_map_iff in H as (q' & <- & H).
      apply list_elem_of_In, IH in H. now apply prefix_cons.
    + intros [k Hk]. destruct q as [|c' q]; [now left|right].
      simpl in Hk. injection Hk as -> Hk.
      apply list_elem_of_In, in_map_iff. exists q. split; [reflexivity|].
      apply list_elem_of_In, IH. now exists k.
Qed.

(** X11: after a successful write the directory of the target and every
    ancestor of it are directories, the directories that existed before
    still are, and no other directory was made. *)
Theorem aio_write_makes_parents os target data mode end_ st st' :
  _aio_write os target data mode end_ st = (inr tt, st') ->
  forall q, q ∈ dirs (disk st')
            <-> q ∈ dirs (disk st) \/ q `prefix_of` parent target.
Proof.
  intros H q. apply aio_write_ok_inv in H. subst st'. cbn [disk written dirs].
  rewrite elem_of_union, elem_of_list_to_set. now rewrite with_parents_prefix.
Qed.

Lemma aio_write_makes_parents_witness :
  let st := start All None empty_disk in
  let target := ["a"%string; "b"%string; "summary.txt"%string] in
  ["a"%string] ∈ dirs (disk (final (_aio_write reliable target "s" ModeW EmptyString st))).
Proof.
  intros st target.
  apply (aio_write_makes_parents reliable target "s" ModeW EmptyString st _ eq_refl).
  right. exists ["b"%string]. reflexivity.
Defined.



(** ** The text of [info.json]: characters and order *)










Lemma insert_item_comm {V} (x y : Z * V) l :
  fst x <> fst y ->
  Json.insert_item Z.leb x (Json.insert_item Z.leb y l)
  = Json.insert_item Z.leb y (Json.insert_item Z.leb x l).
Proof.
  intros Hne. induction l as [|z l IH]; simpl;
    repeat match goal with
      | |- context [Z.leb ?a ?b] => destruct (Z.leb_spec a b); simpl
      end;
    try reflexivity; try lia.
  now rewrite IH.
Qed.

Lemma sorted_perm_eq {V} (l l' : list (Z * V)) :
  NoDup (Dict.keys l) -> l ≡ₚ l' -> Json.sorted Z.leb l = Json.sorted Z.leb l'.
Proof.
  intros Hnd Hp. induction Hp as [|x l l' Hp IH|x y l|l l' l'' Hp1 IH1 Hp2 IH2].
  - reflexivity.
  - simpl. rewrite IH; [reflexivity|].
    unfold Dict.keys in *. simpl in Hnd. now apply NoDup_cons in Hnd as [_ ?].
  - simpl. apply insert_item_comm.
    unfold Dict.keys in Hnd. simpl in Hnd.
    apply NoDup_cons in Hnd as [Hy _]. intros Heq. apply Hy.
    rewrite Heq. apply list_elem_of_here.
  - rewrite IH1 by assumption. apply IH2.
    now rewrite <- (keys_perm _ _ Hp1).
Qed.

(** X14: the text of [info.json] does not depend on the order in which
    the chapters were added: two aggregates with the same summary and the
    same records under distinct numbers, in any order, give the same
    text. *)
Theorem info_json_ignores_insertion_order (d1 d2 : ExportData) :
  NoDup (Dict.keys (chapters d1)) ->
  chapters d1 ≡ₚ chapters d2 ->
  summary d1 = summary d2 ->
  Json.dumps (data_obj d1) = Json.dumps (data_obj d2).
Proof.
  intros Hnd Hp Hs. rewrite !dumps_info_text. unfold Layout.by_number.
  now rewrite (sorted_perm_eq _ _ Hnd Hp), Hs.
Qed.

Lemma info_json_ignores_insertion_order_witness :
  let a := (2, {| title := "Two"; notes := EmptyString |}) in
  let b := (10, {| title := "Ten"; notes := "n" |}) in
  Json.dumps (data_obj {| chapters := [a; b]; summary := "s" |})
  = Json.dumps (data_obj {| chapters := [b; a]; summary := "s" |}).
Proof.
  intros a b.
  apply info_json_ignores_insertion_order.
  - apply NoDup_cons_2; [|apply NoDup_singleton].
    intros H%list_elem_of_singleton. discriminate H.
  - apply Permutation_swap.
  - reflexivity.
Defined.

(** ** From the calls to the file *)


